(** * Profile-image upload and e-commerce client: a shallow embedding

    The development follows two modules of the platform:

    - [openedx/core/djangoapps/profile_images/views.py]: validation of an
      uploaded picture against a fixed table of image types, center-crop and
      scaling to four thumbnail sizes, storage of the thumbnails, and the
      upload view;
    - [lms/djangoapps/commerce/api.py]: the client of the e-commerce API.

    Python values are modelled by their Rocq counterparts: byte strings by
    [string], file contents by [list byte], integers by [Z], dictionaries
    iterated in order by association lists, the file storage by a [gmap]
    from names to stored files.  Exceptions are values of the type [exn];
    a computation that may raise returns a [Result]. *)

From Stdlib Require Import ZArith String Ascii Strings.Byte List Lia Permutation.
From stdpp Require Import base option list strings pretty gmap stringmap.
Import ListNotations.

Local Open Scope string_scope.

(** ** Python primitives *)

Module Py.

(** Exceptions raised by the modelled code. *)
Inductive exn :=
| InvalidProfileImage (message : string)
| IOError (message : string)
| KeyError (key : string)
| IndexError
| AttributeError (message : string)
| JSONDecodeError
| UnicodeEncodeError.

(** Outcome of a call: a returned value or a raised exception. *)
Inductive Result (A : Type) :=
| Return (a : A)
| Raise (e : exn).
Arguments Return {A} a.
Arguments Raise {A} e.

(** A unicode string: the list of its code points. *)
Definition unicode := list N.

(** The unicode string of a literal whose characters are code points. *)
Definition unicode_of (s : string) : unicode :=
  map N_of_ascii (list_ascii_of_string s).

(** [str(x)] for a unicode string, which encodes with the ASCII codec:
    the byte string of the code points when all are below 128,
    [UnicodeEncodeError] otherwise. *)
Definition str_of_unicode (x : unicode) : Result string :=
  if forallb (fun c => (c <? 128)%N) x
  then Return (string_of_list_ascii (map ascii_of_N x))
  else Raise UnicodeEncodeError.

(** [str.lower()] on a Python 2 byte string: only [A-Z] change. *)
Definition lower_char (c : ascii) : ascii :=
  let n := nat_of_ascii c in
  if (65 <=? n)%nat && (n <=? 90)%nat then ascii_of_nat (n + 32) else c.

Fixpoint lower (s : string) : string :=
  match s with
  | EmptyString => EmptyString
  | String c s' => String (lower_char c) (lower s')
  end.

(** [s.endswith(suffix)]. *)
Definition endswith (s suffix : string) : bool :=
  bool_decide (list_ascii_of_string suffix `suffix_of` list_ascii_of_string s).

(** [x in l] for a list of strings. *)
Definition str_in (x : string) (l : list string) : bool :=
  existsb (String.eqb x) l.

(** [any(p(x) for x in l)]. *)
Definition any {A} (p : A -> bool) (l : list A) : bool := existsb p l.

(** [s.encode('hex')]: two lowercase hexadecimal digits per byte. *)
Definition hex_digit (n : N) : ascii :=
  match String.get (N.to_nat n) "0123456789abcdef" with
  | Some c => c
  | None => "0"%char
  end.

Definition hex_of_byte (b : byte) : string :=
  let n := Byte.to_N b in
  String (hex_digit (n / 16)) (String (hex_digit (n mod 16)) EmptyString).

Fixpoint encode_hex (bs : list byte) : string :=
  match bs with
  | [] => EmptyString
  | b :: bs' => hex_of_byte b ++ encode_hex bs'
  end.

(** [str(n)] for an integer: its decimal numeral. *)
Definition str_of_int (n : Z) : string := pretty n.

(** Values of the dynamically typed data that crosses the HTTP boundary:
    what [json] decodes to and what a response body is built from.
    [JNull] is Python's [None]. *)
#[local] Unset Elimination Schemes.
Inductive JSON :=
| JNull
| JBool (b : bool)
| JInt (n : Z)
| JStr (s : string)
| JList (l : list JSON)
| JDict (d : list (string * JSON)).
#[local] Set Elimination Schemes.

(** [d.get(key)]: defined on dictionaries only; a missing key gives
    [None]. *)
Fixpoint assoc_get (d : list (string * JSON)) (key : string) : JSON :=
  match d with
  | [] => JNull
  | (k, v) :: d' => if String.eqb k key then v else assoc_get d' key
  end.

(** [type(data).__name__] for a decoded value; integers beyond the
    machine word (of 64 bits) are of type [long], decoded strings are
    unicode. *)
Definition sys_maxint : Z := 2 ^ 63 - 1.

Definition type_name (data : JSON) : string :=
  match data with
  | JNull => "NoneType"
  | JBool _ => "bool"
  | JInt n =>
      if ((- sys_maxint - 1 <=? n) && (n <=? sys_maxint))%Z
      then "int" else "long"
  | JStr _ => "unicode"
  | JList _ => "list"
  | JDict _ => "dict"
  end.

Definition get (data : JSON) (key : string) : Result JSON :=
  match data with
  | JDict d => Return (assoc_get d key)
  | _ => Raise (AttributeError
                  ("'" ++ type_name data
                       ++ "' object has no attribute 'get'"))
  end.

(** Code that threads a state of type [S] and may raise. *)
Definition StateExn (S A : Type) : Type := S -> Result A * S.

#[global] Instance StateExn_ret {S} : MRet (StateExn S) :=
  fun A a st => (Return a, st).
#[global] Instance StateExn_bind {S} : MBind (StateExn S) :=
  fun A B k c st =>
    match c st with
    | (Return a, st') => k a st'
    | (Raise e, st') => (Raise e, st')
    end.

Definition raise {S A} (e : exn) : StateExn S A := fun st => (Raise e, st).

(** A pure outcome inside stateful code. *)
Definition lift {S A} (r : Result A) : StateExn S A := fun st => (r, st).

(** [for x in l: body(x)]. *)
Fixpoint for_each {S A} (l : list A) (body : A -> StateExn S unit)
    : StateExn S unit :=
  match l with
  | [] => mret tt
  | x :: l' => body x ;; for_each l' body
  end.

(** [hashlib]: the digest is a parameter of the development. *)
Class Hashlib := md5_hexdigest : string -> string.

End Py.
Import Py.

(** ** profile_images/views.py *)

Module ProfileImages.

Definition PROFILE_IMAGE_MAX_BYTES : Z := 1024 * 1024.
Definition PROFILE_IMAGE_MIN_BYTES : Z := 100.

Definition DEV_MSG_FILE_TOO_LARGE := "Maximum file size exceeded.".
Definition DEV_MSG_FILE_TOO_SMALL := "Minimum file size not met.".
Definition DEV_MSG_FILE_BAD_TYPE := "Unsupported file type.".
Definition DEV_MSG_FILE_BAD_EXT := "File extension does not match data.".
Definition DEV_MSG_FILE_BAD_MIMETYPE := "Content-Type header does not match data.".

(** *** Uploaded files

    What the imaging library finds in the bytes of a file it identifies
    as an image: the mode of the picture ("RGB", "L", "P" for a palette,
    ...), its width and height, read from the header when the file is
    opened, and the error of decoding the pixel data, which are loaded
    only when an operation needs them ([None] when they load). *)
Record Picture := {
  pic_mode : string;
  pic_size : Z * Z;
  pic_load_error : option string
}.

(** An upload as the multipart parser hands it to the view: the client's
    file name, a unicode string, the [size] attribute, the Content-Type of
    the part, the bytes, and the picture the imaging library finds in
    these bytes, [None] when it cannot identify them as an image. *)
Record Upload := {
  name : unicode;
  size : Z;
  content_type : string;
  content : list byte;
  picture : option Picture
}.

(** The file object: an upload and the position of its cursor. *)
Record File := {
  upload : Upload;
  tell : nat
}.

(** The framework rewinds an uploaded file before the view sees it. *)
Definition uploaded (u : Upload) : File := {| upload := u; tell := 0 |}.

(** [f.read(n)]: at most [n] bytes from the cursor, which advances. *)
Definition read (n : nat) (f : File) : list byte * File :=
  let data := firstn n (skipn (tell f) (content (upload f))) in
  (data, {| upload := upload f; tell := tell f + length data |}).

(** [f.seek(0)]. *)
Definition seek0 (f : File) : File := {| upload := upload f; tell := 0 |}.

(** *** The table of image types *)

Record ImageType := {
  extension : list string;
  mimetypes : list string;
  magic : list string
}.

(** The dictionary [image_types], in the order of the source. *)
Definition image_types : list (string * ImageType) :=
  [ ("jpeg", {| extension := [".jpeg"; ".jpg"];
                mimetypes := ["image/jpeg"; "image/pjpeg"];
                magic := ["ffd8"] |});
    ("png",  {| extension := [".png"];
                mimetypes := ["image/png"];
                magic := ["89504e470d0a1a0a"] |});
    ("gif",  {| extension := [".gif"];
                mimetypes := ["image/gif"];
                magic := ["474946383961"; "474946383761"] |}) ].

(** [d[k]] on a dictionary with string keys. *)
Fixpoint getitem {V} (d : list (string * V)) (k : string) : Result V :=
  match d with
  | [] => Raise (KeyError k)
  | (k', v) :: d' => if String.eqb k' k then Return v else getitem d' k
  end.

(** The extension test of the list comprehension, for one key. *)
Definition extension_matches (types : list (string * ImageType))
    (filename ft : string) : bool :=
  match getitem types ft with
  | Return t => any (fun ext => endswith filename ext) (extension t)
  | Raise _ => false
  end.

(** [validate_profile_image], over a table whose keys are iterated in the
    order of the list. *)
Definition validate_with (types : list (string * ImageType))
    (image_file : File) (content_type : string) : Result string * File :=
  (* check file size *)
  if (size (upload image_file) >? PROFILE_IMAGE_MAX_BYTES)%Z then
    (Raise (InvalidProfileImage DEV_MSG_FILE_TOO_LARGE), image_file)
  else if (size (upload image_file) <? PROFILE_IMAGE_MIN_BYTES)%Z then
    (Raise (InvalidProfileImage DEV_MSG_FILE_TOO_SMALL), image_file)
  else
  (* check the file extension looks acceptable *)
  match str_of_unicode (name (upload image_file)) with
  | Raise e => (Raise e, image_file)
  | Return name_str =>
  let filename := lower name_str in
  let filetype := List.filter (extension_matches types filename)
                              (map fst types) in
  match filetype with
  | [] => (Raise (InvalidProfileImage DEV_MSG_FILE_BAD_TYPE), image_file)
  | filetype :: _ =>
    match getitem types filetype with
    | Raise e => (Raise e, image_file)
    | Return entry =>
      (* check mimetype matches expected file type *)
      if negb (str_in content_type (mimetypes entry)) then
        (Raise (InvalidProfileImage DEV_MSG_FILE_BAD_MIMETYPE), image_file)
      else
      (* check image file headers match expected file type *)
      let headers := magic entry in
      match headers with
      | [] => (Raise IndexError, image_file)
      | h0 :: _ =>
        let (data, image_file) := read (String.length h0 / 2) image_file in
        if negb (str_in (encode_hex data) headers) then
          (Raise (InvalidProfileImage DEV_MSG_FILE_BAD_EXT), image_file)
        else
          (Return filetype, seek0 image_file)
      end
    end
  end
  end.

Definition validate_profile_image := validate_with image_types.

(** *** Pictures

    The imaging library is modelled by the operations the view performs on
    a picture and by the size and mode each one yields: [Image.open]
    reads the header of a file, [crop] loads the pixel data and cuts the
    box (left, upper, right, lower), [resize] loads the pixel data and
    scales to the requested size, [save] encodes.  The modes its JPEG
    encoder writes are a parameter of the development. *)
Class Imaging := JPEG_RAWMODE : list string.

Inductive Filter := ANTIALIAS.

Inductive Image :=
| Decoded (data : list byte) (pic : Picture)
| Cropped (box : Z * Z * Z * Z) (im : Image)
| Resized (sz : Z * Z) (resample : Filter) (im : Image).

(** [image_obj.size]. *)
Definition Image_size (im : Image) : Z * Z :=
  match im with
  | Decoded _ pic => pic_size pic
  | Cropped (x0, y0, x1, y1) _ => (x1 - x0, y1 - y0)%Z
  | Resized sz _ _ => sz
  end.

(** The picture an image was made from; neither cropping nor resizing
    changes its mode. *)
Fixpoint Image_source (im : Image) : Picture :=
  match im with
  | Decoded _ pic => pic
  | Cropped _ im' => Image_source im'
  | Resized _ _ im' => Image_source im'
  end.

(** [image_obj.mode]. *)
Definition Image_mode (im : Image) : string := pic_mode (Image_source im).

(** A file produced by [save(..., format='JPEG')]: the encoded picture. *)
Inductive ContentFile := JPEG (im : Image).

(** [image_obj.crop(box)]: loads the pixel data, which raises [IOError]
    when they cannot be decoded. *)
Definition Image_crop (im : Image) (box : Z * Z * Z * Z) : Result Image :=
  match pic_load_error (Image_source im) with
  | Some message => Raise (IOError message)
  | None => Return (Cropped box im)
  end.

(** [image_obj.resize(size, resample)]: loads the pixel data as well. *)
Definition Image_resize (im : Image) (sz : Z * Z) (resample : Filter)
    : Result Image :=
  match pic_load_error (Image_source im) with
  | Some message => Raise (IOError message)
  | None => Return (Resized sz resample im)
  end.

(** [image_obj.save(fp, format='JPEG')]: raises [IOError] for a mode the
    encoder does not write. *)
Definition Image_save_JPEG `{Imaging} (im : Image) : Result ContentFile :=
  if str_in (Image_mode im) JPEG_RAWMODE then Return (JPEG im)
  else Raise (IOError ("cannot write mode " ++ Image_mode im ++ " as JPEG")).

(** *** The storage and the monad of the view

    The storage backend maps names to stored files.  Code that uses it
    threads the storage and may raise. *)
Abbreviation Storage := (gmap string ContentFile).
Abbreviation M := (StateExn Storage).

(** [storage.exists(name)]. *)
Definition storage_exists (name : string) : M bool :=
  fun st => (Return (bool_decide (is_Some (st !! name))), st).

(** [storage.delete(name)]. *)
Definition storage_delete (name : string) : M unit :=
  fun st => (Return tt, delete name st).

(** [storage.save(name, content)] never overwrites: the file goes under
    [name] when that is free and under a free variant of it otherwise; the
    name used is returned. *)
Definition get_available_name (name : string) (st : Storage) : string :=
  fresh_string name st.

Definition storage_save (name : string) (content : ContentFile) : M string :=
  fun st =>
    let name := get_available_name name st in
    (Return name, <[name := content]> st).

(** [Image.open(fp)]: the picture of the file, or [IOError]. *)
Definition Image_open (fp : File) : M Image :=
  match picture (upload fp) with
  | Some pic => mret (Decoded (content (upload fp)) pic)
  | None => raise (IOError "cannot identify image file")
  end.

Definition get_scaled_image_file `{Imaging} (image_obj : Image) (side : Z)
    : Result ContentFile :=
  match Image_resize image_obj (side, side) ANTIALIAS with
  | Raise e => Raise e
  | Return scaled =>
      match Image_save_JPEG scaled with
      | Raise e => Raise e
      | Return image_file => Return image_file
      end
  end.

Section WithHashlib.
Context {H : Hashlib} {I : Imaging}.

Definition name_profile_image (username : string) (side : Z) : string :=
  md5_hexdigest username ++ "_profile_" ++ str_of_int side ++ ".jpeg".

Definition store_profile_image (image_file : ContentFile) (side : Z)
    (username : string) : M string :=
  let dest_name := name_profile_image username side in
  ex ← storage_exists dest_name;
  (if ex : bool then storage_delete dest_name else mret tt) ;;
  path ← storage_save dest_name image_file;
  mret path.

(** The crop box of a picture that is not square. *)
Definition crop_box (width height : Z) : Z * Z * Z * Z :=
  let side := if (width <? height)%Z then width else height in
  ((width - side) / 2, (height - side) / 2,
   (width + side) / 2, (height + side) / 2)%Z.

Definition generate_profile_images (image_file : File) (username : string)
    : M unit :=
  image_obj ← Image_open image_file;
  (* first center-crop the image if needed (but no scaling yet). *)
  let '(width, height) := Image_size image_obj in
  image_obj ←
    (if negb (width =? height)%Z
     then lift (Image_crop image_obj (crop_box width height))
     else mret image_obj);
  for_each [30; 50; 120; 500]%Z (fun side =>
    scaled_image_file ← lift (get_scaled_image_file image_obj side);
    (* Store the file. *)
    store_profile_image scaled_image_file side username ;; mret tt).

(** *** The upload view *)

Record User := { username : string; is_staff : bool }.

Record Request := { user : User; FILES : gmap string Upload }.

Record Response := { data : option JSON; status : Z }.

Definition HTTP_200_OK : Z := 200.
Definition HTTP_400_BAD_REQUEST : Z := 400.
Definition HTTP_403_FORBIDDEN : Z := 403.

(** [ProfileImageUploadView.post]. *)
Definition post (request : Request) (username_ : string) : M Response :=
  (* ensure authenticated user is either same as username, or is staff. *)
  if negb (String.eqb (username (user request)) username_)
     && negb (is_staff (user request)) then
    mret {| data := None; status := HTTP_403_FORBIDDEN |}
  else
  (* ensure file exists at all! *)
  match FILES request !! "file" with
  | None => mret {| data := None; status := HTTP_400_BAD_REQUEST |}
  | Some u =>
    let uploaded_file := uploaded u in
    (* image file validation. *)
    match validate_profile_image uploaded_file (content_type u) with
    | (Raise (InvalidProfileImage message), _) =>
        mret {| data := Some (JDict [("developer_message", JStr message);
                                     ("user_message", JNull)]);
                status := HTTP_400_BAD_REQUEST |}
    | (Raise e, _) => raise e
    | (Return _, uploaded_file) =>
        (* generate profile pic and thumbnails and store them *)
        generate_profile_images uploaded_file username_ ;;
        (* send user response. *)
        mret {| data := Some (JDict [("status", JStr "success")]);
                status := HTTP_200_OK |}
    end
  end.

End WithHashlib.

(** *** The specification's reading of the checks

    The fixed table as the specification lists it, one row per image type:
    its extensions, its mimetypes, its magic strings. *)
Inductive table_row
    : string -> list string -> list string -> list string -> Prop :=
| row_jpeg : table_row "jpeg" [".jpeg"; ".jpg"]
                       ["image/jpeg"; "image/pjpeg"] ["ffd8"]
| row_png : table_row "png" [".png"] ["image/png"] ["89504e470d0a1a0a"]
| row_gif : table_row "gif" [".gif"] ["image/gif"]
                      ["474946383961"; "474946383761"].

(** [s] ends with [suffix]. *)
Definition ends_with (s suffix : string) : Prop := exists p, s = p ++ suffix.

(** Some leading bytes of the file hex-encode to [m]. *)
Definition leading_bytes_encode (c : list byte) (m : string) : Prop :=
  exists n, encode_hex (firstn n c) = m.

Definition size_in_range (u : Upload) : Prop :=
  (PROFILE_IMAGE_MIN_BYTES <= size u /\ size u <= PROFILE_IMAGE_MAX_BYTES)%Z.

(** The name of the upload is ASCII, and [s] is its byte string. *)
Definition name_str (u : Upload) (s : string) : Prop :=
  str_of_unicode (name u) = Return s.

Definition extension_ok (u : Upload) (exts : list string) : Prop :=
  exists s ext, name_str u s /\ In ext exts /\ ends_with (lower s) ext.

Definition magic_ok (u : Upload) (magics : list string) : Prop :=
  exists m, In m magics /\ leading_bytes_encode (content u) m.

(** The three file-type checks pass for the type [ft]. *)
Definition passes_type_checks (u : Upload) (ct ft : string) : Prop :=
  exists exts mimes magics,
    table_row ft exts mimes magics /\
    extension_ok u exts /\ In ct mimes /\ magic_ok u magics.

(** The file passes every check of the fixed table for the type [ft]. *)
Definition passes_fixed_table (u : Upload) (ct ft : string) : Prop :=
  size_in_range u /\ passes_type_checks u ct ft.

(** The fixed-table checks that come after the size check, and the message
    of each.  A check fails when it is reached, that is when the checks
    before it passed, and the file does not meet it. *)
Inductive Check := ExtensionCheck | MimetypeCheck | MagicCheck.

Definition message_of (c : Check) : string :=
  match c with
  | ExtensionCheck => DEV_MSG_FILE_BAD_TYPE
  | MimetypeCheck => DEV_MSG_FILE_BAD_MIMETYPE
  | MagicCheck => DEV_MSG_FILE_BAD_EXT
  end.

Inductive check_fails (u : Upload) (ct : string) : Check -> Prop :=
| extension_fails s :
    size_in_range u -> name_str u s ->
    (forall ft exts mimes magics,
       table_row ft exts mimes magics -> ~ extension_ok u exts) ->
    check_fails u ct ExtensionCheck
| mimetype_fails ft exts mimes magics :
    size_in_range u ->
    table_row ft exts mimes magics -> extension_ok u exts ->
    ~ In ct mimes ->
    check_fails u ct MimetypeCheck
| magic_fails ft exts mimes magics :
    size_in_range u ->
    table_row ft exts mimes magics -> extension_ok u exts ->
    In ct mimes -> ~ magic_ok u magics ->
    check_fails u ct MagicCheck.

(** The requester is neither the target user nor staff. *)
Definition forbidden (request : Request) (username_ : string) : Prop :=
  username (user request) <> username_ /\ is_staff (user request) = false.

(** The body and status of the response to an invalid picture. *)
Definition error_response (message : string) : Response :=
  {| data := Some (JDict [("developer_message", JStr message);
                          ("user_message", JNull)]);
     status := 400 |}.

Definition success_response : Response :=
  {| data := Some (JDict [("status", JStr "success")]); status := 200 |}.

(** The steps of the pipeline and the order in which they run.  A step
    that runs before another reports its failure whatever the later step
    would say. *)
Definition size_message (m : string) : Prop :=
  m = "Maximum file size exceeded." \/ m = "Minimum file size not met.".

Definition sniffing_message (m : string) : Prop :=
  m = "Unsupported file type." \/
  m = "Content-Type header does not match data." \/
  m = "File extension does not match data.".

Definition sniffing_passes (u : Upload) (ct : string) : Prop :=
  exists ft, passes_type_checks u ct ft.

Definition raises_with (r : Result string) (P : string -> Prop) : Prop :=
  exists m, P m /\ r = Raise (InvalidProfileImage m).

(** File-type sniffing, then size checks. *)
Definition sniffing_then_size (u : Upload) (ct : string) (r : Result string)
    : Prop :=
  (~ sniffing_passes u ct -> raises_with r sniffing_message) /\
  (sniffing_passes u ct -> ~ size_in_range u -> raises_with r size_message).

(** Size checks, then file-type sniffing. *)
Definition size_then_sniffing (u : Upload) (ct : string) (r : Result string)
    : Prop :=
  (~ size_in_range u -> raises_with r size_message) /\
  (size_in_range u -> (exists s, name_str u s) -> ~ sniffing_passes u ct ->
   raises_with r sniffing_message).

(** The four fixed sides of the thumbnails. *)
Definition thumbnail_sides : list Z := [30; 50; 120; 500]%Z.

(** The picture that [generate_profile_images] scales: the decoded one,
    cropped when it is not square. *)
Definition squared (u : Upload) (pic : Picture) : Image :=
  let '(w, h) := pic_size pic in
  if negb (w =? h)%Z
  then Cropped (crop_box w h) (Decoded (content u) pic)
  else Decoded (content u) pic.

(** The thumbnail of a picture: the JPEG file of the picture scaled to
    side x side. *)
Definition thumbnail (im : Image) (side : Z) : ContentFile :=
  JPEG (Resized (side, side) ANTIALIAS im).

(** The imaging library can load the pixel data of the picture and write
    its mode as JPEG. *)
Definition writable_as_JPEG `{Imaging} (pic : Picture) : Prop :=
  pic_load_error pic = None /\ In (pic_mode pic) JPEG_RAWMODE.

(** The loop of [generate_profile_images] over the picture [image_obj]. *)
Definition scale_and_store `{Hashlib} `{Imaging} (image_obj : Image)
    (username : string) : M unit :=
  for_each [30; 50; 120; 500]%Z (fun side =>
    scaled_image_file ← lift (get_scaled_image_file image_obj side);
    store_profile_image scaled_image_file side username ;; mret tt).

(** The interval from [lo] to [hi] lies in the middle of [0, total]: the
    margins on its two sides are equal, or the far one is one pixel wider
    when their sum is odd. *)
Definition centered (lo hi total : Z) : Prop :=
  (0 <= lo /\ hi <= total /\ lo <= total - hi <= lo + 1)%Z.

(** The result of [validate_profile_image] for each way an upload fails
    or passes the checks. *)
Inductive outcome (u : Upload) (ct : string) : Result string -> Prop :=
| too_large :
    (PROFILE_IMAGE_MAX_BYTES < size u)%Z ->
    outcome u ct (Raise (InvalidProfileImage DEV_MSG_FILE_TOO_LARGE))
| too_small :
    (size u < PROFILE_IMAGE_MIN_BYTES)%Z ->
    outcome u ct (Raise (InvalidProfileImage DEV_MSG_FILE_TOO_SMALL))
| name_not_ascii :
    size_in_range u ->
    str_of_unicode (name u) = Raise UnicodeEncodeError ->
    outcome u ct (Raise UnicodeEncodeError)
| failed c :
    check_fails u ct c ->
    outcome u ct (Raise (InvalidProfileImage (message_of c)))
| accepted ft :
    passes_fixed_table u ct ft ->
    outcome u ct (Return ft).

(** The mimetype and magic checks of [validate_profile_image] for the
    entry [entry] of the type [ft], reading [k] bytes. *)
Definition check_entry (u : Upload) (ct ft : string) (entry : ImageType)
    (k : nat) : Result string * File :=
  if negb (str_in ct (mimetypes entry)) then
    (Raise (InvalidProfileImage DEV_MSG_FILE_BAD_MIMETYPE), uploaded u)
  else if negb (str_in (encode_hex (firstn k (content u))) (magic entry)) then
    (Raise (InvalidProfileImage DEV_MSG_FILE_BAD_EXT),
     {| upload := u; tell := length (firstn k (content u)) |})
  else (Return ft, uploaded u).

End ProfileImages.

(** ** commerce/api.py *)

Module Commerce.

(** The libraries the client calls: the HTTP request to the e-commerce
    service and the two encoders. *)
Record HttpResponse := {
  status_code : Z;
  (** what [response.json()] decodes, [None] for a body that is not JSON *)
  body : option JSON
}.

Class Libraries := {
  requests_post : string -> string -> list (string * string) -> Z -> HttpResponse;
  jwt_encode : list (string * string) -> string -> string;
  json_dumps : JSON -> string
}.

(** [response.json()]. *)
Definition response_json (response : HttpResponse) : Result JSON :=
  match body response with
  | Some data => Return data
  | None => Raise JSONDecodeError
  end.

(** Records of the module's logger. *)
Inductive Level := ERROR.

Record LogRecord := {
  level : Level;
  msg : string;
  args : list (string * JSON)
}.

Abbreviation Log := (list LogRecord).

Definition log_error (msg : string) (args : list (string * JSON))
    : StateExn Log unit :=
  fun log =>
    (Return tt, (log ++ [{| level := ERROR; msg := msg; args := args |}])%list).

Definition HTTP_200_OK : Z := 200.

Record EommerceAPI := { url : string; key : string; timeout : Z }.

Record User := { username : string; email : string }.

Section WithLibraries.
Context `{Libraries}.

Definition _get_jwt (self : EommerceAPI) (user : User) : string :=
  let data := [("username", username user); ("email", email user)] in
  jwt_encode data (key self).

Definition create_order (self : EommerceAPI) (user : User) (sku : string)
    : StateExn Log JSON :=
  let headers := [("Content-Type", "application/json");
                  ("Authorization", "JWT " ++ _get_jwt self user)] in
  let url := url self ++ "/orders/" in
  let response :=
    requests_post url (json_dumps (JDict [("sku", JStr sku)])) headers
                  (timeout self) in
  match response_json response with
  | Raise JSONDecodeError =>
      log_error "E-Commerce API response is not valid JSON." [] ;;
      raise JSONDecodeError
  | Raise e => raise e
  | Return data =>
      let status_code := status_code response in
      if (status_code =? HTTP_200_OK)%Z then
        mret data
      else
        let msg := "Response from E-Commerce API was invalid: (%(status)d) - %(msg)s" in
        user_message ← lift (get data "user_message");
        let msg_kwargs := [("status", JInt status_code);
                           ("msg", user_message)] in
        log_error msg msg_kwargs ;;
        mret JNull
  end.

End WithLibraries.

(** *** The constructor

    [s.strip('/')]: the string without its leading and trailing slashes. *)
Fixpoint lstrip_slash (s : string) : string :=
  match s with
  | String c s' => if Ascii.eqb c "/" then lstrip_slash s' else s
  | EmptyString => EmptyString
  end.

Fixpoint rstrip_slash (s : string) : string :=
  match s with
  | EmptyString => EmptyString
  | String c s' =>
      match rstrip_slash s' with
      | EmptyString =>
          if Ascii.eqb c "/" then EmptyString else String c EmptyString
      | r => String c r
      end
  end.

Definition strip_slash (s : string) : string :=
  lstrip_slash (rstrip_slash s).

(** The Django settings the constructor reads.  For the URL and the key
    the outer [None] is a setting that is not defined, which makes the
    access raise [AttributeError], and the inner [None] is Python's
    [None]; the timeout is read with [getattr] and a default, [None] is
    its absence. *)
Record Settings := {
  ECOMMERCE_API_URL : option (option string);
  ECOMMERCE_API_SIGNING_KEY : option (option string);
  ECOMMERCE_API_TIMEOUT : option Z
}.

(** Truth value of an optional string and of an optional integer. *)
Definition truthy_str (x : option string) : bool :=
  match x with
  | Some s => negb (String.eqb s "")
  | None => false
  end.

Definition truthy_int (x : option Z) : bool :=
  match x with
  | Some n => negb (n =? 0)%Z
  | None => false
  end.

(** [settings.NAME]. *)
Definition setting {A} (name : string) (x : option A) : Result A :=
  match x with
  | Some v => Return v
  | None => Raise (AttributeError name)
  end.

(** How a call of the constructor ends. *)
Inductive Constructed :=
| Built (self : EommerceAPI)
| Failed (e : exn)
| ValueError (message : string).

(** [EommerceAPI.__init__]. *)
Definition __init__ (settings : Settings) (url key : option string)
    (timeout : option Z) : Constructed :=
  (* self.url = (url or settings.ECOMMERCE_API_URL).strip('/') *)
  match (if truthy_str url then Return url
         else setting "ECOMMERCE_API_URL" (ECOMMERCE_API_URL settings)) with
  | Raise e => Failed e
  | Return None =>
      Failed (AttributeError "'NoneType' object has no attribute 'strip'")
  | Return (Some url) =>
      let self_url := strip_slash url in
      (* self.key = key or settings.ECOMMERCE_API_SIGNING_KEY *)
      match (if truthy_str key then Return key
             else setting "ECOMMERCE_API_SIGNING_KEY"
                          (ECOMMERCE_API_SIGNING_KEY settings)) with
      | Raise e => Failed e
      | Return self_key =>
          (* self.timeout = timeout or getattr(settings, ..., 5) *)
          let self_timeout :=
            if truthy_int timeout then from_option id 0%Z timeout
            else from_option id 5%Z (ECOMMERCE_API_TIMEOUT settings) in
          if negb (truthy_str (Some self_url) && truthy_str self_key) then
            ValueError "Values for both url and key must be set."
          else
            Built {| url := self_url;
                     key := from_option id "" self_key;
                     timeout := self_timeout |}
      end
  end.

End Commerce.

(** ** Sample inputs *)

Module Samples.
Import ProfileImages.

(** [header] followed by zero bytes up to [total] bytes. *)
Definition padded (header : list byte) (total : Z) : list byte :=
  (header ++ repeat x00 (Z.to_nat total - length header))%list.

(** An upload whose size is the number of its bytes. *)
Definition file_of (name : unicode) (content_type : string)
    (content : list byte) (picture : option Picture) : Upload :=
  {| name := name; size := Z.of_nat (length content);
     content_type := content_type; content := content;
     picture := picture |}.

(** A picture of the mode [mode] whose pixel data load. *)
Definition sound (mode : string) (w h : Z) : Picture :=
  {| pic_mode := mode; pic_size := (w, h); pic_load_error := None |}.

(** The modes the JPEG encoder of the imaging library writes. *)
Definition pil : Imaging := ["1"; "L"; "RGB"; "RGBX"; "CMYK"; "YCbCr"].

Definition jpeg_header : list byte :=
  [xff; xd8; xff; xe0; x00; x10; x4a; x46; x49; x46].
Definition png_header : list byte :=
  [x89; x50; x4e; x47; x0d; x0a; x1a; x0a; x00; x00; x00; x0d].
Definition gif_header : list byte := [x47; x49; x46; x38; x39; x61].
Definition bmp_header : list byte := [x42; x4d; x36; x00; x0c; x00].

(** A JPEG photograph of 320 x 240 pixels. *)
Definition photo : Upload :=
  file_of (unicode_of "Photo.JPG") "image/jpeg" (padded jpeg_header 2048)
          (Some (sound "RGB" 320 240)).

(** A bitmap, a type the table does not list. *)
Definition bitmap : Upload :=
  file_of (unicode_of "scan.bmp") "image/bmp" (padded bmp_header 2048)
          (Some (sound "RGB" 64 64)).

(** A bitmap of fifty bytes, below the minimum size. *)
Definition tiny_bitmap : Upload :=
  file_of (unicode_of "dot.bmp") "image/bmp" (padded bmp_header 50)
          (Some (sound "RGB" 1 1)).

(** A file of a hundred bytes that starts like a JPEG and is no picture. *)
Definition broken : Upload :=
  file_of (unicode_of "broken.jpg") "image/jpeg" (padded [xff; xd8] 100)
          None.

(** A GIF of 320 x 240 pixels: a picture with a palette, mode "P". *)
Definition palette_gif : Upload :=
  file_of (unicode_of "logo.gif") "image/gif" (padded gif_header 4096)
          (Some (sound "P" 320 240)).

(** A JPEG whose pixel data stop short. *)
Definition truncated : Upload :=
  file_of (unicode_of "cut.jpg") "image/jpeg" (padded jpeg_header 300)
          (Some {| pic_mode := "RGB"; pic_size := (320, 240)%Z;
                   pic_load_error := Some "image file is truncated" |}).

(** The photograph under the name r-e acute-s-u-m-e acute.jpg, and the
    bitmap under that name with the extension .bmp: the code point 233 is
    the letter e with an acute accent. *)
Definition resume_jpg : unicode :=
  (unicode_of "r" ++ [233%N] ++ unicode_of "sum" ++ [233%N]
   ++ unicode_of ".jpg")%list.

Definition resume_bmp : unicode :=
  (unicode_of "r" ++ [233%N] ++ unicode_of "sum" ++ [233%N]
   ++ unicode_of ".bmp")%list.

Definition accented_photo : Upload :=
  file_of resume_jpg "image/jpeg" (padded jpeg_header 2048)
          (Some (sound "RGB" 320 240)).

Definition accented_bitmap : Upload :=
  file_of resume_bmp "image/bmp" (padded bmp_header 2048)
          (Some (sound "RGB" 64 64)).

(** A stand-in for the digest. *)
Definition digest : Hashlib := fun s => "md5(" ++ s ++ ")".

(** Alice posts a file to her own endpoint. *)
Definition alice : User := {| username := "alice"; is_staff := false |}.

Definition request_with (u : Upload) : Request :=
  {| user := alice; FILES := {["file" := u]} |}.

(** *** The fixtures of tests/test_views.py *)

(** [_make_image_file]: a picture of the given dimensions saved in the
    format of the extension, padded with zero bytes up to [force_size]
    when one is given; the test client guesses the content type from the
    name. *)
Definition make_image_file (dimensions : Z * Z) (extension : string)
    (force_size : option Z) : Upload :=
  let '(header, mimetype, mode) :=
    if String.eqb extension ".jpeg" then (jpeg_header, "image/jpeg", "RGB")
    else if String.eqb extension ".png" then (png_header, "image/png", "RGB")
    else if String.eqb extension ".gif" then (gif_header, "image/gif", "P")
    else (bmp_header, "image/x-ms-bmp", "RGB") in
  let natural_size := 640%Z in
  file_of (unicode_of ("tmpq3w8zr" ++ extension)) mimetype
          (padded header (from_option id natural_size force_size))
          (Some (sound mode (fst dimensions) (snd dimensions))).

Definition the_user : User := {| username := "robot"; is_staff := false |}.
Definition different_user : User := {| username := "other"; is_staff := false |}.
Definition staff_user : User := {| username := "staff"; is_staff := true |}.

(** [assert_thumbnails] looks at the size of the picture stored under the
    name of each side. *)
Definition thumbnail_sizes (st : Storage) (username : string)
    : list (option (Z * Z)) :=
  map (fun side =>
         match st !! name_profile_image (H := digest) username side with
         | Some (JPEG im) => Some (Image_size im)
         | None => None
         end) [30; 50; 120; 500]%Z.

Definition thumbnails_exist : list (option (Z * Z)) :=
  [Some (30, 30); Some (50, 50); Some (120, 120); Some (500, 500)]%Z.

Definition thumbnails_missing : list (option (Z * Z)) :=
  [None; None; None; None].

(** The outcome of a POST of [files] by [who] to the endpoint of
    [the_user], on an empty storage: the response and the thumbnails. *)
Definition client_post (who : User) (files : gmap string Upload)
    : Result Response * list (option (Z * Z)) :=
  let '(response, st) :=
    post (H := digest) (I := pil) {| user := who; FILES := files |}
         (username the_user) ∅ in
  (response, thumbnail_sizes st (username the_user)).

(** An e-commerce service that answers every order with status 500 and
    a JSON array as body. *)
Definition failing_service : Commerce.Libraries :=
  {| Commerce.requests_post := fun _ _ _ _ =>
       {| Commerce.status_code := 500; Commerce.body := Some (JList []) |};
     Commerce.jwt_encode := fun _ _ => "header.payload.signature";
     Commerce.json_dumps := fun _ => "{}" |}.

(** A service that refuses the order with status 409 and a JSON object. *)
Definition refusing_service : Commerce.Libraries :=
  {| Commerce.requests_post := fun _ _ _ _ =>
       {| Commerce.status_code := 409;
          Commerce.body :=
            Some (JDict [("user_message", JStr "Already enrolled.")]) |};
     Commerce.jwt_encode := fun _ _ => "header.payload.signature";
     Commerce.json_dumps := fun _ => "{}" |}.

Definition api : Commerce.EommerceAPI :=
  {| Commerce.url := "https://ecommerce.example.com/api/v1";
     Commerce.key := "signing-key"; Commerce.timeout := 5 |}.

Definition buyer : Commerce.User :=
  {| Commerce.username := "alice"; Commerce.email := "alice@example.com" |}.

End Samples.

(** ** tests/test_views.py: the helper that builds an image file *)

Module TestHelpers.

(** [for _ in xrange(n): body]: nothing for [n <= 0]. *)
Fixpoint times {S} (n : nat) (body : S -> S) (st : S) : S :=
  match n with
  | O => st
  | Datatypes.S n' => times n' body (body st)
  end.

Definition xrange {S} (n : Z) (body : S -> S) (st : S) : S :=
  times (Z.to_nat n) body st.

(** [image_file.write(data)] with the cursor at the end of the file. *)
Definition write (data : list byte) (file : list byte) : list byte :=
  (file ++ data)%list.

(** The padding of [_make_image_file]: [saved] is what [image.save] wrote;
    the result is the content of the temporary file. *)
Definition pad_image_file (saved : list byte) (force_size : option Z)
    : list byte :=
  match force_size with
  | None => saved
  | Some force_size =>
      (* image_file.seek(0, os.SEEK_END); image_file.tell() *)
      let tell := Z.of_nat (length saved) in
      let bytes_to_pad := (force_size - tell)%Z in
      (* write in hunks of 256 bytes *)
      let hunk := repeat x00 256 in
      let byte_ := [x00] in
      let '(num_hunks, remainder) :=
        ((bytes_to_pad / 256)%Z, (bytes_to_pad mod 256)%Z) in
      let image_file := xrange num_hunks (write hunk) saved in
      let image_file := xrange remainder (write byte_) image_file in
      image_file
  end.

End TestHelpers.

(** ** Further sample inputs *)

Module MoreSamples.
Import Commerce.

Definition lms_settings : Settings :=
  {| ECOMMERCE_API_URL := Some (Some "https://shop.example.com/api/v1/");
     ECOMMERCE_API_SIGNING_KEY := Some (Some "signing-key");
     ECOMMERCE_API_TIMEOUT := None |}.

End MoreSamples.

(** * Facts *)

(** ** Python primitives *)

Module PyFacts.

Lemma list_ascii_app (a b : string) :
  list_ascii_of_string (a ++ b) =
  (list_ascii_of_string a ++ list_ascii_of_string b)%list.
Proof. induction a as [|c a IH]; [reflexivity|]. cbn. now rewrite <- IH. Qed.

Lemma string_of_list_app (a b : list ascii) :
  string_of_list_ascii (a ++ b)%list =
  string_of_list_ascii a ++ string_of_list_ascii b.
Proof. induction a as [|c a IH]; [reflexivity|]. cbn. now rewrite IH. Qed.

(** [endswith] decides "is of the form [p ++ suffix]". *)
Lemma endswith_spec (s suffix : string) :
  endswith s suffix = true <-> exists p, s = p ++ suffix.
Proof.
  unfold endswith. rewrite bool_decide_eq_true. split.
  - intros [k Hk]. exists (string_of_list_ascii k).
    rewrite <- (string_of_list_ascii_of_string s), Hk, string_of_list_app.
    now rewrite string_of_list_ascii_of_string.
  - intros [p ->]. exists (list_ascii_of_string p). apply list_ascii_app.
Qed.

(** Two suffixes of one string: one is a suffix of the other. *)
Lemma endswith_total (s a b : string) :
  endswith s a = true -> endswith s b = true ->
  endswith a b = true \/ endswith b a = true.
Proof.
  unfold endswith. rewrite !bool_decide_eq_true. intros Ha Hb.
  destruct (suffix_weak_total _ _ _ Ha Hb); auto.
Qed.

Lemma str_in_spec (x : string) (l : list string) :
  str_in x l = true <-> In x l.
Proof.
  unfold str_in. rewrite existsb_exists. split.
  - intros (y & Hy & Heq). apply String.eqb_eq in Heq. now subst.
  - intros Hx. exists x. split; [assumption|apply String.eqb_refl].
Qed.

Lemma str_in_false (x : string) (l : list string) :
  str_in x l = false <-> ~ In x l.
Proof.
  rewrite <- str_in_spec. destruct (str_in x l); split; congruence.
Qed.

Lemma encode_hex_length (bs : list byte) :
  String.length (encode_hex bs) = 2 * length bs.
Proof.
  induction bs as [|b bs IH]; [reflexivity|].
  change (encode_hex (b :: bs)) with
    (String (hex_digit (Byte.to_N b / 16))
       (String (hex_digit (Byte.to_N b mod 16)) (encode_hex bs))).
  cbn [String.length length]. rewrite IH. lia.
Qed.

Lemma firstn_by_length {A} (n k : nat) (l : list A) :
  length (firstn n l) = k -> firstn n l = firstn k l.
Proof.
  rewrite List.length_firstn. intros Hk.
  destruct (Nat.le_gt_cases n (length l)) as [Hle|Hgt].
  - now replace k with n by lia.
  - replace k with (length l) by lia.
    now rewrite List.firstn_all, List.firstn_all2 by lia.
Qed.

(** Whatever number of leading bytes encodes to a string of [2 * k]
    digits, the first [k] bytes do. *)
Lemma encode_hex_leading (c : list byte) (n k : nat) (m : string) :
  encode_hex (firstn n c) = m -> String.length m = 2 * k ->
  encode_hex (firstn k c) = m.
Proof.
  intros Hm Hlen. rewrite <- Hm in Hlen. rewrite encode_hex_length in Hlen.
  rewrite <- (firstn_by_length n k c) by lia. exact Hm.
Qed.

End PyFacts.

(** ** Validation of an upload *)

Module ValidationFacts.
Import ProfileImages PyFacts.

Lemma size_cases (u : Upload) :
  ((size u >? PROFILE_IMAGE_MAX_BYTES)%Z = true /\
   (PROFILE_IMAGE_MAX_BYTES < size u)%Z) \/
  ((size u >? PROFILE_IMAGE_MAX_BYTES)%Z = false /\
   (size u <? PROFILE_IMAGE_MIN_BYTES)%Z = true /\
   (size u < PROFILE_IMAGE_MIN_BYTES)%Z) \/
  ((size u >? PROFILE_IMAGE_MAX_BYTES)%Z = false /\
   (size u <? PROFILE_IMAGE_MIN_BYTES)%Z = false /\
   size_in_range u).
Proof.
  unfold size_in_range.
  destruct (Z.gtb_spec (size u) PROFILE_IMAGE_MAX_BYTES);
  destruct (Z.ltb_spec (size u) PROFILE_IMAGE_MIN_BYTES); auto.
  all: try (right; right; repeat split; lia).
  all: try (right; left; repeat split; lia).
Qed.

(** Past the size check with no key selected: the type is unsupported. *)
Lemma validate_no_extension types u ct s :
  (size u >? PROFILE_IMAGE_MAX_BYTES)%Z = false ->
  (size u <? PROFILE_IMAGE_MIN_BYTES)%Z = false ->
  name_str u s ->
  List.filter (extension_matches types (lower s)) (map fst types) = [] ->
  validate_with types (uploaded u) ct =
  (Raise (InvalidProfileImage DEV_MSG_FILE_BAD_TYPE), uploaded u).
Proof.
  intros Hmax Hmin Hs Hf. unfold validate_with, uploaded.
  cbn [upload tell]. now rewrite Hmax, Hmin, Hs, Hf.
Qed.

(** Past the size check with a name that is not ASCII: [str] raises. *)
Lemma validate_not_ascii types u ct e :
  (size u >? PROFILE_IMAGE_MAX_BYTES)%Z = false ->
  (size u <? PROFILE_IMAGE_MIN_BYTES)%Z = false ->
  str_of_unicode (name u) = Raise e ->
  validate_with types (uploaded u) ct = (Raise e, uploaded u).
Proof.
  intros Hmax Hmin Hs. unfold validate_with, uploaded.
  cbn [upload tell]. now rewrite Hmax, Hmin, Hs.
Qed.

Lemma str_of_unicode_Raise x e :
  str_of_unicode x = Raise e -> e = UnicodeEncodeError.
Proof. unfold str_of_unicode. destruct (forallb _ x); congruence. Qed.

(** Past the size check with the key [ft] selected first: the remaining
    checks are those of its entry. *)
Lemma validate_after_extension types u ct s ft entry h0 rest tl :
  (size u >? PROFILE_IMAGE_MAX_BYTES)%Z = false ->
  (size u <? PROFILE_IMAGE_MIN_BYTES)%Z = false ->
  name_str u s ->
  List.filter (extension_matches types (lower s)) (map fst types)
    = ft :: tl ->
  getitem types ft = Return entry ->
  magic entry = h0 :: rest ->
  validate_with types (uploaded u) ct =
  check_entry u ct ft entry (String.length h0 / 2).
Proof.
  intros Hmax Hmin Hs Hf Hg Hm. unfold validate_with, check_entry, uploaded.
  cbn [upload tell]. rewrite Hmax, Hmin, Hs, Hf, Hg, Hm.
  destruct (negb (str_in ct (mimetypes entry))); [reflexivity|].
  unfold read. cbn [upload tell skipn fst snd Nat.add].
  destruct (negb _); reflexivity.
Qed.

(** The keys the list comprehension selects from the table. *)
Lemma keys_of_image_types fn :
  List.filter (extension_matches image_types fn) (map fst image_types) =
  ((if endswith fn ".jpeg" || endswith fn ".jpg" then ["jpeg"] else []) ++
   (if endswith fn ".png" then ["png"] else []) ++
   (if endswith fn ".gif" then ["gif"] else []))%list.
Proof.
  change (map fst image_types) with ["jpeg"; "png"; "gif"].
  cbn [List.filter].
  change (extension_matches image_types fn "jpeg")
    with (endswith fn ".jpeg" || (endswith fn ".jpg" || false)).
  change (extension_matches image_types fn "png")
    with (endswith fn ".png" || false).
  change (extension_matches image_types fn "gif")
    with (endswith fn ".gif" || false).
  destruct (endswith fn ".jpeg"), (endswith fn ".jpg"),
    (endswith fn ".png"), (endswith fn ".gif"); reflexivity.
Qed.

(** No file name ends with the extensions of two types. *)
Ltac clash H1 H2 :=
  let H := fresh in
  destruct (endswith_total _ _ _ H1 H2) as [H|H]; vm_compute in H;
  discriminate H.

Lemma extensions_exclusive fn :
  let j := endswith fn ".jpeg" || endswith fn ".jpg" in
  let p := endswith fn ".png" in
  let g := endswith fn ".gif" in
  (j = true -> p = false /\ g = false) /\ (p = true -> g = false).
Proof.
  cbv zeta.
  destruct (endswith fn ".jpeg") eqn:E1, (endswith fn ".jpg") eqn:E2,
    (endswith fn ".png") eqn:E3, (endswith fn ".gif") eqn:E4;
    cbn; repeat split; intros; try reflexivity; try discriminate;
    first [clash E1 E3 | clash E1 E4 | clash E2 E3 | clash E2 E4 | clash E3 E4].
Qed.

(** At most one key is selected. *)
Lemma keys_at_most_one fn :
  (length (List.filter (extension_matches image_types fn)
                       (map fst image_types)) <= 1)%nat.
Proof.
  rewrite keys_of_image_types.
  destruct (extensions_exclusive fn) as [Hj Hp].
  destruct (endswith fn ".jpeg" || endswith fn ".jpg").
  - destruct (Hj eq_refl) as [-> ->]. cbn. lia.
  - destruct (endswith fn ".png").
    + rewrite (Hp eq_refl). cbn. lia.
    + destruct (endswith fn ".gif"); cbn; lia.
Qed.

Lemma validate_too_large types u ct :
  (size u >? PROFILE_IMAGE_MAX_BYTES)%Z = true ->
  validate_with types (uploaded u) ct =
  (Raise (InvalidProfileImage DEV_MSG_FILE_TOO_LARGE), uploaded u).
Proof.
  intros Hmax. unfold validate_with, uploaded. cbn [upload tell].
  now rewrite Hmax.
Qed.

Lemma validate_too_small types u ct :
  (size u >? PROFILE_IMAGE_MAX_BYTES)%Z = false ->
  (size u <? PROFILE_IMAGE_MIN_BYTES)%Z = true ->
  validate_with types (uploaded u) ct =
  (Raise (InvalidProfileImage DEV_MSG_FILE_TOO_SMALL), uploaded u).
Proof.
  intros Hmax Hmin. unfold validate_with, uploaded. cbn [upload tell].
  now rewrite Hmax, Hmin.
Qed.

(** [extension_ok] is what [any(filename.endswith(ext) ...)] computes. *)
Lemma extension_ok_spec u s exts :
  name_str u s ->
  any (endswith (lower s)) exts = true <-> extension_ok u exts.
Proof.
  intros Hs. unfold any, extension_ok, ends_with. rewrite existsb_exists.
  split.
  - intros (ext & Hin & Hext). exists s, ext. repeat split; try assumption.
    now apply endswith_spec.
  - intros (s' & ext & Hs' & Hin & Hext). unfold name_str in *.
    assert (s' = s) as -> by congruence.
    exists ext. split; [assumption|]. now apply endswith_spec.
Qed.

(** The magic check reads as many bytes as the magic strings encode. *)
Lemma magic_ok_spec u magics k :
  (forall m, In m magics -> String.length m = 2 * k) ->
  str_in (encode_hex (firstn k (content u))) magics = true <->
  magic_ok u magics.
Proof.
  intros Hlen. rewrite str_in_spec. unfold magic_ok, leading_bytes_encode.
  split.
  - intros Hin. eexists. split; [exact Hin|]. now exists k.
  - intros (m & Hin & n & Hn).
    now rewrite (encode_hex_leading _ n k m Hn (Hlen m Hin)).
Qed.

(** The checks of an entry whose extension matched end as [outcome]
    says. *)
Lemma check_entry_outcome u ct ft entry k :
  size_in_range u ->
  table_row ft (extension entry) (mimetypes entry) (magic entry) ->
  extension_ok u (extension entry) ->
  (forall m, In m (magic entry) -> String.length m = 2 * k) ->
  outcome u ct (fst (check_entry u ct ft entry k)).
Proof.
  intros Hsize Hrow Hext Hlen. unfold check_entry.
  destruct (str_in ct (mimetypes entry)) eqn:Hmime; cbn [negb].
  - apply str_in_spec in Hmime.
    destruct (str_in _ (magic entry)) eqn:Hmagic; cbn [negb fst].
    + apply accepted. split; [assumption|].
      exists (extension entry), (mimetypes entry), (magic entry).
      repeat split; try assumption. now apply (magic_ok_spec u _ k).
    + apply (failed u ct MagicCheck).
      apply (magic_fails u ct ft (extension entry) (mimetypes entry)
               (magic entry)); try assumption.
      intros Hok. apply (magic_ok_spec u _ k Hlen) in Hok. congruence.
  - apply str_in_false in Hmime. cbn [fst].
    apply (failed u ct MimetypeCheck).
    now apply (mimetype_fails u ct ft (extension entry) (mimetypes entry)
                 (magic entry)).
Qed.

Ltac magic_lengths :=
  let m := fresh in let Hm := fresh in
  intros m Hm; cbn in Hm;
  repeat (destruct Hm as [Hm|Hm]; [subst m; reflexivity|]);
  contradiction.

(** [validate_profile_image] on an uploaded file ends as [outcome]
    says. *)
Lemma validate_outcome u ct :
  outcome u ct (fst (validate_profile_image (uploaded u) ct)).
Proof.
  unfold validate_profile_image.
  destruct (size_cases u) as [[Hmax Hlt]|[(Hmax & Hmin & Hlt)|(Hmax & Hmin & Hs)]].
  - rewrite validate_too_large by assumption. now apply too_large.
  - rewrite validate_too_small by assumption. now apply too_small.
  - destruct (str_of_unicode (name u)) as [s|e] eqn:Hname.
    2: { rewrite (validate_not_ascii _ u ct e Hmax Hmin Hname).
         pose proof (str_of_unicode_Raise _ _ Hname) as ->.
         now apply name_not_ascii. }
    pose proof (keys_of_image_types (lower s)) as Hkeys.
    destruct (endswith (lower s) ".jpeg"
              || endswith (lower s) ".jpg") eqn:Ej;
      [|destruct (endswith (lower s) ".png") eqn:Ep;
        [|destruct (endswith (lower s) ".gif") eqn:Eg]].
    + rewrite (validate_after_extension _ u ct s "jpeg" _ "ffd8" [] _
                 Hmax Hmin Hname Hkeys eq_refl eq_refl).
      apply check_entry_outcome; [assumption|constructor| |magic_lengths].
      apply (extension_ok_spec u s); [exact Hname|].
      cbn. now rewrite orb_false_r.
    + rewrite (validate_after_extension _ u ct s "png" _ "89504e470d0a1a0a"
                 [] _ Hmax Hmin Hname Hkeys eq_refl eq_refl).
      apply check_entry_outcome; [assumption|constructor| |magic_lengths].
      apply (extension_ok_spec u s); [exact Hname|]. cbn. now rewrite Ep.
    + rewrite (validate_after_extension _ u ct s "gif" _ "474946383961"
                 ["474946383761"] _ Hmax Hmin Hname Hkeys eq_refl eq_refl).
      apply check_entry_outcome; [assumption|constructor| |magic_lengths].
      apply (extension_ok_spec u s); [exact Hname|]. cbn. now rewrite Eg.
    + rewrite (validate_no_extension _ u ct s Hmax Hmin Hname Hkeys).
      apply (failed u ct ExtensionCheck), (extension_fails u ct s);
        [assumption|exact Hname|].
      intros ft exts mimes magics Hrow Hok.
      apply (extension_ok_spec u s _ Hname) in Hok.
      apply orb_false_iff in Ej as [E1 E2].
      destruct Hrow; cbn in Hok; rewrite ?E1, ?E2, ?Ep, ?Eg in Hok;
        discriminate.
Qed.

Lemma extension_ok_name u exts :
  extension_ok u exts -> exists s, name_str u s.
Proof. intros (s & _ & Hs & _). now exists s. Qed.

(** A file name selects one row of the table at most. *)
Lemma table_row_unique u ft exts mimes magics ft' exts' mimes' magics' :
  table_row ft exts mimes magics -> extension_ok u exts ->
  table_row ft' exts' mimes' magics' -> extension_ok u exts' ->
  ft = ft' /\ exts = exts' /\ mimes = mimes' /\ magics = magics'.
Proof.
  intros Hrow Hok Hrow' Hok'.
  destruct (extension_ok_name _ _ Hok) as [s Hs].
  apply (extension_ok_spec u s _ Hs) in Hok.
  apply (extension_ok_spec u s _ Hs) in Hok'.
  destruct (extensions_exclusive (lower s)) as [Hj Hp].
  destruct Hrow, Hrow'; auto; cbn in Hok, Hok';
    rewrite ?orb_false_r in Hok, Hok'.
  - destruct (Hj Hok) as [Hp' _]. congruence.
  - destruct (Hj Hok) as [_ Hg']. congruence.
  - destruct (Hj Hok') as [Hp' _]. congruence.
  - specialize (Hp Hok). congruence.
  - destruct (Hj Hok') as [_ Hg']. congruence.
  - specialize (Hp Hok'). congruence.
Qed.

Lemma size_not_both u :
  size_in_range u ->
  ~ (PROFILE_IMAGE_MAX_BYTES < size u)%Z /\
  ~ (size u < PROFILE_IMAGE_MIN_BYTES)%Z.
Proof. unfold size_in_range. lia. Qed.

Lemma check_fails_size u ct c : check_fails u ct c -> size_in_range u.
Proof. now destruct 1. Qed.

Lemma check_fails_name u ct c : check_fails u ct c -> exists s, name_str u s.
Proof.
  destruct 1 as [s ? Hs _|? ? ? ? ? ? Hok _|? ? ? ? ? ? Hok _ _];
    [now exists s|now apply extension_ok_name in Hok..].
Qed.

Lemma passes_name u ct ft :
  passes_fixed_table u ct ft -> exists s, name_str u s.
Proof.
  intros (_ & ? & ? & ? & _ & Hok & _). now apply extension_ok_name in Hok.
Qed.

(** Two checks cannot both be the failing one. *)
Lemma check_fails_unique u ct c c' :
  check_fails u ct c -> check_fails u ct c' -> c = c'.
Proof.
  intros H1 H2.
  destruct H1 as [s ? Hs Hno|ft exts mimes magics ? Hrow Hok Hmime
                 |ft exts mimes magics ? Hrow Hok Hmime Hmagic];
  destruct H2 as [s' ? Hs' Hno'|ft' exts' mimes' magics' ? Hrow' Hok' Hmime'
                 |ft' exts' mimes' magics' ? Hrow' Hok' Hmime' Hmagic'];
    try reflexivity;
    try (exfalso; now eapply Hno; eauto);
    try (exfalso; now eapply Hno'; eauto);
    destruct (table_row_unique u _ _ _ _ _ _ _ _ Hrow Hok Hrow' Hok')
      as (_ & _ & -> & _); contradiction.
Qed.

Lemma check_fails_not_passes u ct c ft :
  check_fails u ct c -> passes_fixed_table u ct ft -> False.
Proof.
  intros Hc (_ & exts' & mimes' & magics' & Hrow' & Hok' & Hmime' & Hmagic').
  destruct Hc as [s ? Hs Hno|ft0 exts mimes magics ? Hrow Hok Hmime
                 |ft0 exts mimes magics ? Hrow Hok Hmime Hmagic].
  - now apply (Hno _ _ _ _ Hrow').
  - destruct (table_row_unique u _ _ _ _ _ _ _ _ Hrow Hok Hrow' Hok')
      as (_ & _ & -> & _); contradiction.
  - destruct (table_row_unique u _ _ _ _ _ _ _ _ Hrow Hok Hrow' Hok')
      as (_ & _ & _ & ->); contradiction.
Qed.

Lemma message_of_inj c c' : message_of c = message_of c' -> c = c'.
Proof. destruct c, c'; cbv; congruence. Qed.

Lemma passes_unique u ct ft ft' :
  passes_fixed_table u ct ft -> passes_fixed_table u ct ft' -> ft = ft'.
Proof.
  intros (_ & ? & ? & ? & Hrow & Hok & _) (_ & ? & ? & ? & Hrow' & Hok' & _).
  now destruct (table_row_unique u _ _ _ _ _ _ _ _ Hrow Hok Hrow' Hok').
Qed.

(** Each upload has one outcome. *)
Lemma outcome_functional u ct r r' :
  outcome u ct r -> outcome u ct r' -> r = r'.
Proof.
  assert (Hclash : forall e s,
            str_of_unicode (name u) = Raise e -> name_str u s -> False)
    by (unfold name_str; congruence).
  intros H1 H2.
  destruct H1 as [Hl|Hs|Hr Hn|c Hc|ft Hp];
    destruct H2 as [Hl'|Hs'|Hr' Hn'|c' Hc'|ft' Hp'];
    try reflexivity;
    try (exfalso; unfold size_in_range, PROFILE_IMAGE_MAX_BYTES,
           PROFILE_IMAGE_MIN_BYTES in *; lia);
    try (exfalso;
         match goal with
         | Hc : check_fails _ _ _, Hn : str_of_unicode _ = Raise _ |- _ =>
             destruct (check_fails_name _ _ _ Hc) as [s Hs0];
             exact (Hclash _ _ Hn Hs0)
         | Hp : passes_fixed_table _ _ _,
           Hn : str_of_unicode _ = Raise _ |- _ =>
             destruct (passes_name _ _ _ Hp) as [s Hs0];
             exact (Hclash _ _ Hn Hs0)
         | Hc : check_fails _ _ _ |- _ =>
             apply check_fails_size, size_not_both in Hc; tauto
         | Hp : passes_fixed_table _ _ _ |- _ =>
             destruct Hp as [Hp _]; apply size_not_both in Hp; tauto
         end).
  - now rewrite (check_fails_unique u ct c c').
  - exfalso. eapply check_fails_not_passes; eauto.
  - exfalso. eapply check_fails_not_passes; eauto.
  - now rewrite (passes_unique u ct ft ft').
Qed.

(** The result of the code is the outcome of the upload, and no
    other. *)
Lemma validate_iff_outcome u ct r :
  fst (validate_profile_image (uploaded u) ct) = r <-> outcome u ct r.
Proof.
  split.
  - intros <-. apply validate_outcome.
  - intros Hr. apply (outcome_functional u ct); [apply validate_outcome|exact Hr].
Qed.

(** *** The order of the dictionary is irrelevant

    The list comprehension of [validate_profile_image] follows the
    iteration order of a dictionary.  Whatever that order is, the function
    computes the same. *)

Lemma getitem_Return {V} (d : list (string * V)) k v :
  getitem d k = Return v -> In (k, v) d.
Proof.
  induction d as [|[k' v'] d IH]; cbn; [discriminate|].
  destruct (String.eqb_spec k' k) as [->|Hne].
  - intros [= ->]. now left.
  - intros Hg. right. now apply IH.
Qed.

Lemma getitem_Raise {V} (d : list (string * V)) k e :
  getitem d k = Raise e -> ~ In k (map fst d) /\ e = KeyError k.
Proof.
  induction d as [|[k' v'] d IH]; cbn.
  - intros [= <-]. tauto.
  - destruct (String.eqb_spec k' k) as [->|Hne]; [discriminate|].
    intros Hg. destruct (IH Hg) as [Hnot ->]. split; [|reflexivity].
    intros [Heq|Hin]; [now apply Hne|now apply Hnot].
Qed.

Lemma getitem_In {V} (d : list (string * V)) k v :
  List.NoDup (map fst d) -> In (k, v) d -> getitem d k = Return v.
Proof.
  induction d as [|[k' v'] d IH]; cbn; [contradiction|].
  intros Hnd [Heq|Hin].
  - injection Heq as -> ->. now rewrite String.eqb_refl.
  - apply List.NoDup_cons_iff in Hnd as [Hk' Hnd].
    destruct (String.eqb_spec k' k) as [->|Hne]; [|now apply IH].
    exfalso. apply Hk'. apply in_map_iff. now exists (k, v).
Qed.

Lemma getitem_not_In {V} (d : list (string * V)) k :
  ~ In k (map fst d) -> getitem d k = Raise (KeyError k).
Proof.
  induction d as [|[k' v'] d IH]; cbn; [reflexivity|].
  intros Hnot. destruct (String.eqb_spec k' k) as [->|Hne]; [tauto|].
  apply IH. tauto.
Qed.

Lemma getitem_Permutation {V} (d d' : list (string * V)) k :
  List.NoDup (map fst d) -> Permutation d d' -> getitem d' k = getitem d k.
Proof.
  intros Hnd Hperm.
  assert (Hnd' : List.NoDup (map fst d'))
    by (eapply Permutation_NoDup; [apply Permutation_map, Hperm|exact Hnd]).
  destruct (getitem d k) as [v|e] eqn:Hg.
  - apply getitem_In; [exact Hnd'|].
    eapply Permutation_in; [exact Hperm|now apply getitem_Return].
  - apply getitem_Raise in Hg as [Hnot ->]. apply getitem_not_In.
    intros Hin. apply Hnot.
    eapply Permutation_in; [apply Permutation_map, Permutation_sym, Hperm|].
    exact Hin.
Qed.

Lemma filter_Permutation_bool {A} (f : A -> bool) (l l' : list A) :
  Permutation l l' -> Permutation (List.filter f l) (List.filter f l').
Proof.
  induction 1 as [|x l l' _ IH|x y l|l l' l'' _ IH _ IH']; cbn.
  - constructor.
  - destruct (f x); [now constructor|exact IH].
  - destruct (f x), (f y); try reflexivity. apply perm_swap.
  - now transitivity (List.filter f l').
Qed.

Lemma validate_order_irrelevant types u ct :
  Permutation image_types types ->
  validate_with types (uploaded u) ct =
  validate_profile_image (uploaded u) ct.
Proof.
  intros Hperm. unfold validate_profile_image.
  assert (Hnd : List.NoDup (map fst image_types)).
  { cbn. repeat constructor; cbn; intuition discriminate. }
  assert (Hget : forall k, getitem types k = getitem image_types k)
    by (intros k; now apply getitem_Permutation).
  assert (Hkeys : forall fn,
    List.filter (extension_matches types fn) (map fst types) =
    List.filter (extension_matches image_types fn) (map fst image_types)).
  { intros fn.
    rewrite (filter_ext (extension_matches types fn)
                        (extension_matches image_types fn))
      by (intros k; unfold extension_matches; now rewrite Hget).
    pose proof (keys_at_most_one fn) as Hone.
    assert (Hp : Permutation
      (List.filter (extension_matches image_types fn) (map fst image_types))
      (List.filter (extension_matches image_types fn) (map fst types)))
      by (apply filter_Permutation_bool, Permutation_map, Hperm).
    destruct (List.filter _ (map fst image_types)) as [|k [|k' tl]].
    - now apply Permutation_nil in Hp.
    - now apply Permutation_length_1_inv in Hp.
    - cbn in Hone. lia. }
  unfold validate_with, uploaded. cbn [upload tell].
  destruct (str_of_unicode (name u)) as [s|e]; [|reflexivity].
  rewrite Hkeys.
  destruct (List.filter _ (map fst image_types)) as [|k tl]; [reflexivity|].
  now rewrite Hget.
Qed.

(** *** Validation against the fixed table *)

(** For a name that is ASCII the function does what its documentation
    says: it returns a file type, one of gif, jpeg and png, if and only
    if the file passes every check of the fixed table for that type, and
    it raises [InvalidProfileImage] otherwise.  A name that is not ASCII
    is never accepted. *)
Theorem validate_returns_iff_passes (u : Upload) (ct : string) :
  let result := fst (validate_profile_image (uploaded u) ct) in
  (forall ft, result = Return ft <-> passes_fixed_table u ct ft) /\
  (forall ft, result = Return ft -> In ft ["gif"; "jpeg"; "png"]) /\
  (~ (exists ft, passes_fixed_table u ct ft) ->
   (exists message, result = Raise (InvalidProfileImage message)) \/
   (result = Raise UnicodeEncodeError /\
    str_of_unicode (name u) = Raise UnicodeEncodeError)).
Proof.
  cbv zeta. split; [|split].
  - intros ft. rewrite validate_iff_outcome. split.
    + now inversion 1.
    + apply accepted.
  - intros ft Hr. apply validate_iff_outcome in Hr.
    inversion Hr as [| | | |? Hp].
    destruct Hp as (_ & ? & ? & ? & Hrow & _).
    destruct Hrow; cbn; tauto.
  - intros Hnone.
    destruct (validate_outcome u ct) as [| |? Hn| |ft Hp]; eauto.
    exfalso. apply Hnone. now exists ft.
Qed.

(** C1, the defect: the photograph named with the accented word, 2048
    bytes sent as image/jpeg, passes every check of the fixed table for
    the type jpeg: its size is within the range,
    its name, which is in lower case, ends with '.jpg', the content type
    is a mimetype of jpeg and its two leading bytes hex-encode to
    'ffd8'.  [validate_profile_image] neither returns 'jpeg' nor raises
    [InvalidProfileImage]: [str] of the name raises
    [UnicodeEncodeError].  Under an ASCII name the same bytes are
    accepted. *)
Theorem accented_name_is_not_validated :
  size_in_range Samples.accented_photo /\
  (exists p, name Samples.accented_photo = (p ++ unicode_of ".jpg")%list) /\
  In "image/jpeg" ["image/jpeg"; "image/pjpeg"] /\
  encode_hex (firstn 2 (content Samples.accented_photo)) = "ffd8" /\
  fst (validate_profile_image (uploaded Samples.accented_photo) "image/jpeg")
    = Raise UnicodeEncodeError /\
  content Samples.photo = content Samples.accented_photo /\
  fst (validate_profile_image (uploaded Samples.photo) "image/jpeg")
    = Return "jpeg".
Proof.
  split; [|split; [|split; [|split; [|split; [|split]]]]].
  - unfold size_in_range. vm_compute. split; discriminate.
  - exists (unicode_of "r" ++ [233%N] ++ unicode_of "sum" ++ [233%N])%list.
    reflexivity.
  - cbn. tauto.
  - vm_compute. reflexivity.
  - vm_compute. reflexivity.
  - reflexivity.
  - vm_compute. reflexivity.
Qed.

(** C5: the size check rejects with 'Maximum file size exceeded.' exactly
    when the size is strictly greater than 1048576 bytes and with 'Minimum
    file size not met.' exactly when it is strictly less than 100 bytes; a
    file of exactly 100 or exactly 1048576 bytes passes the size check. *)
Theorem size_check_bounds (u : Upload) (ct : string) :
  let result := fst (validate_profile_image (uploaded u) ct) in
  (result = Raise (InvalidProfileImage "Maximum file size exceeded.") <->
   (size u > 1048576)%Z) /\
  (result = Raise (InvalidProfileImage "Minimum file size not met.") <->
   (size u < 100)%Z) /\
  ((size u = 100 \/ size u = 1048576)%Z ->
   result <> Raise (InvalidProfileImage "Maximum file size exceeded.") /\
   result <> Raise (InvalidProfileImage "Minimum file size not met.")).
Proof.
  cbv zeta.
  assert (Hmax : fst (validate_profile_image (uploaded u) ct) =
                 Raise (InvalidProfileImage "Maximum file size exceeded.") <->
                 (size u > 1048576)%Z).
  { rewrite validate_iff_outcome. split.
    - inversion 1 as [Hl| | |c Hc Hm|];
        [unfold PROFILE_IMAGE_MAX_BYTES in Hl; lia|destruct c; discriminate].
    - intros Hl. apply too_large. unfold PROFILE_IMAGE_MAX_BYTES. lia. }
  assert (Hmin : fst (validate_profile_image (uploaded u) ct) =
                 Raise (InvalidProfileImage "Minimum file size not met.") <->
                 (size u < 100)%Z).
  { rewrite validate_iff_outcome. split.
    - inversion 1 as [|Hl| |c Hc Hm|];
        [unfold PROFILE_IMAGE_MIN_BYTES in Hl; lia|destruct c; discriminate].
    - intros Hl. apply too_small. unfold PROFILE_IMAGE_MIN_BYTES. lia. }
  split; [exact Hmax|split; [exact Hmin|]].
  rewrite Hmax, Hmin. lia.
Qed.

Lemma size_check_bounds_witness :
  fst (validate_profile_image
         (uploaded Samples.broken) "image/jpeg")
  <> Raise (InvalidProfileImage "Minimum file size not met.").
Proof.
  destruct (size_check_bounds Samples.broken "image/jpeg") as (_ & _ & Hedge).
  apply Hedge. left. reflexivity.
Defined.

(** Each of the three checks fails, that is, is reached and not met, if
    and only if [validate_profile_image] raises [InvalidProfileImage]
    with the message of that check; the three messages are pairwise
    distinct.  A check is reached only under an ASCII name. *)
Theorem check_fails_iff_message (u : Upload) (ct : string) :
  let result := fst (validate_profile_image (uploaded u) ct) in
  (check_fails u ct ExtensionCheck <->
   result = Raise (InvalidProfileImage "Unsupported file type.")) /\
  (check_fails u ct MimetypeCheck <->
   result = Raise (InvalidProfileImage
                     "Content-Type header does not match data.")) /\
  (check_fails u ct MagicCheck <->
   result = Raise (InvalidProfileImage
                     "File extension does not match data.")) /\
  List.NoDup (map message_of [ExtensionCheck; MimetypeCheck; MagicCheck]).
Proof.
  cbv zeta.
  assert (Hc : forall c, check_fails u ct c <->
                 fst (validate_profile_image (uploaded u) ct) =
                 Raise (InvalidProfileImage (message_of c))).
  { intros c. rewrite validate_iff_outcome. split; [apply failed|].
    inversion 1 as [Hl Hm|Hl Hm| |c' Hc' Hm|]; try (destruct c; discriminate).
    now rewrite <- (message_of_inj _ _ Hm). }
  split; [apply (Hc ExtensionCheck)|].
  split; [apply (Hc MimetypeCheck)|].
  split; [apply (Hc MagicCheck)|].
  cbn. repeat constructor; cbn; intuition discriminate.
Qed.

Lemma unicode_suffix_length (x p : unicode) (ext : string) :
  x = (p ++ unicode_of ext)%list ->
  skipn (length x - String.length ext) x = unicode_of ext.
Proof.
  intros ->. unfold unicode_of at 2.
  assert (Hlen : length (unicode_of ext) = String.length ext).
  { unfold unicode_of. rewrite List.length_map.
    induction ext as [|c ext IH]; [reflexivity|]. cbn. now rewrite IH. }
  rewrite List.length_app, Hlen.
  replace (length p + String.length ext - String.length ext) with (length p)
    by lia.
  rewrite List.skipn_app, List.skipn_all, Nat.sub_diag. reflexivity.
Qed.

(** C7, the defect: the bitmap named with the accented word, 2048 bytes,
    has a size within the range and a name that ends with none of the
    extensions of the table, so the check of the extension is the one
    that fails.  [validate_profile_image] does not raise
    [InvalidProfileImage] with 'Unsupported file type.': [str] of the
    name raises [UnicodeEncodeError] before the extensions are looked
    at.  The bitmap under an ASCII name gets the message. *)
Theorem accented_name_gets_no_message :
  size_in_range Samples.accented_bitmap /\
  (forall ext p,
     In ext [".jpeg"; ".jpg"; ".png"; ".gif"] ->
     name Samples.accented_bitmap <> (p ++ unicode_of ext)%list) /\
  fst (validate_profile_image (uploaded Samples.accented_bitmap) "image/bmp")
    = Raise UnicodeEncodeError /\
  fst (validate_profile_image (uploaded Samples.bitmap) "image/bmp")
    = Raise (InvalidProfileImage "Unsupported file type.").
Proof.
  split; [|split; [|split]].
  - unfold size_in_range. vm_compute. split; discriminate.
  - intros ext p Hin Heq. apply unicode_suffix_length in Heq.
    cbn in Hin. destruct Hin as [<-|[<-|[<-|[<-|[]]]]];
      vm_compute in Heq; discriminate Heq.
  - vm_compute. reflexivity.
  - vm_compute. reflexivity.
Qed.

End ValidationFacts.

(** ** Thumbnails and their storage *)

Module ThumbnailFacts.
Import ProfileImages PyFacts.

Lemma string_app_inv_tail (a b c : string) : a ++ c = b ++ c -> a = b.
Proof.
  intros Heq. apply (f_equal list_ascii_of_string) in Heq.
  rewrite !list_ascii_app in Heq. apply List.app_inv_tail in Heq.
  rewrite <- (string_of_list_ascii_of_string a), Heq.
  apply string_of_list_ascii_of_string.
Qed.

Lemma get_available_name_free (name : string) (st : Storage) :
  st !! name = None -> get_available_name name st = name.
Proof. intros Hfree. unfold get_available_name, fresh_string. now rewrite Hfree. Qed.

(** A name that is taken is not used again: without the deletion the
    file would go elsewhere. *)
Lemma storage_save_taken (name : string) (content old : ContentFile)
    (st : Storage) :
  st !! name = Some old ->
  exists name', storage_save name content st = (Return name', <[name' := content]> st)
    /\ name' <> name /\ <[name' := content]> st !! name = Some old.
Proof.
  intros Htaken. exists (get_available_name name st).
  assert (Hne : get_available_name name st <> name).
  { intros Heq. pose proof (fresh_string_fresh st name) as Hfresh.
    unfold get_available_name in Heq. rewrite Heq in Hfresh. congruence. }
  repeat split; [exact Hne|]. now rewrite lookup_insert_ne.
Qed.

Section WithHashlib.
Context {H : Hashlib} {I : Imaging}.

Lemma name_profile_image_inj (username : string) (side side' : Z) :
  name_profile_image username side = name_profile_image username side' ->
  side = side'.
Proof.
  unfold name_profile_image, str_of_int. intros Heq.
  apply String.app_inj in Heq. apply String.app_inj in Heq.
  apply string_app_inv_tail in Heq. now apply pretty_Z_inj in Heq.
Qed.

(** [store_profile_image] puts the file under the name of the user and
    side, whatever was there, and returns that name. *)
Lemma store_profile_image_eq (image_file : ContentFile) (side : Z)
    (username : string) (st : Storage) :
  store_profile_image image_file side username st =
  (Return (name_profile_image username side),
   <[name_profile_image username side := image_file]> st).
Proof.
  unfold store_profile_image, mbind, StateExn_bind, storage_exists,
    storage_delete, storage_save, mret, StateExn_ret.
  case_bool_decide as Hex.
  - rewrite get_available_name_free by apply lookup_delete_eq.
    now rewrite insert_delete_eq.
  - rewrite get_available_name_free
      by (apply eq_None_not_Some; exact Hex).
    reflexivity.
Qed.

Lemma writable_dec (pic : Picture) :
  writable_as_JPEG pic \/ ~ writable_as_JPEG pic.
Proof.
  unfold writable_as_JPEG.
  destruct (pic_load_error pic) as [m|]; [right; now intros [? _]|].
  destruct (str_in (pic_mode pic) JPEG_RAWMODE) eqn:Hm.
  - left. split; [reflexivity|now apply str_in_spec].
  - right. intros [_ Hin]. apply str_in_spec in Hin. congruence.
Qed.

(** Scaling succeeds for every side or for none, and the error does not
    depend on the side. *)
Lemma get_scaled_image_file_ok (im : Image) (side : Z) :
  writable_as_JPEG (Image_source im) ->
  get_scaled_image_file im side = Return (thumbnail im side).
Proof.
  intros [Hload Hmode]. apply str_in_spec in Hmode.
  unfold get_scaled_image_file, Image_resize, Image_save_JPEG, Image_mode.
  rewrite Hload. cbn [Image_source]. now rewrite Hmode.
Qed.

Lemma get_scaled_image_file_fails (im : Image) :
  ~ writable_as_JPEG (Image_source im) ->
  exists message,
    forall side, get_scaled_image_file im side = Raise (IOError message).
Proof.
  intros Hnot.
  unfold get_scaled_image_file, Image_resize, Image_save_JPEG, Image_mode.
  destruct (pic_load_error (Image_source im)) as [m|] eqn:Hload.
  - now exists m.
  - cbn [Image_source].
    destruct (str_in (pic_mode (Image_source im)) JPEG_RAWMODE) eqn:Hmode.
    + exfalso. apply Hnot. split; [exact Hload|now apply str_in_spec].
    + eexists. intros side. reflexivity.
Qed.

Lemma scale_and_store_ok (im : Image) (username : string) (st : Storage) :
  writable_as_JPEG (Image_source im) ->
  let name := name_profile_image username in
  scale_and_store im username st =
  (Return tt,
   <[name 500%Z := thumbnail im 500%Z]> (<[name 120%Z := thumbnail im 120%Z]>
     (<[name 50%Z := thumbnail im 50%Z]>
        (<[name 30%Z := thumbnail im 30%Z]> st)))).
Proof.
  intros Hw. cbv zeta. unfold scale_and_store. cbn [for_each].
  unfold mbind, StateExn_bind, mret, StateExn_ret, lift.
  rewrite !(get_scaled_image_file_ok im _ Hw).
  now rewrite !store_profile_image_eq.
Qed.

Lemma scale_and_store_fails (im : Image) (username : string) (st : Storage) :
  ~ writable_as_JPEG (Image_source im) ->
  exists message,
    scale_and_store im username st = (Raise (IOError message), st).
Proof.
  intros Hnot. destruct (get_scaled_image_file_fails im Hnot) as [m Hm].
  exists m. unfold scale_and_store. cbn [for_each].
  unfold mbind at 1. unfold StateExn_bind at 1. unfold lift at 1.
  unfold mbind at 1. unfold StateExn_bind at 1.
  now rewrite Hm.
Qed.

Lemma squared_source (u : Upload) (pic : Picture) :
  Image_source (squared u pic) = pic.
Proof.
  unfold squared. destruct (pic_size pic) as [w h].
  now destruct (negb (w =? h)%Z).
Qed.

(** With a file the library opens, [generate_profile_images] is the loop
    over the squared picture. *)
Lemma generate_profile_images_unfold (f : File) (username : string)
    (st : Storage) (pic : Picture) :
  picture (upload f) = Some pic ->
  generate_profile_images f username st =
  scale_and_store (squared (upload f) pic) username st.
Proof.
  intros Hpic. unfold generate_profile_images, Image_open. rewrite Hpic.
  unfold mbind at 1. unfold StateExn_bind at 1.
  unfold mret at 1. unfold StateExn_ret at 1.
  unfold squared. cbn [Image_size].
  destruct (pic_size pic) as [w h].
  unfold mbind at 1. unfold StateExn_bind at 1.
  destruct (negb (w =? h)%Z); [|reflexivity].
  unfold lift at 1. unfold Image_crop. cbn [Image_source].
  destruct (pic_load_error pic) as [m|] eqn:Hload; [|reflexivity].
  symmetry.
  destruct (scale_and_store_fails
              (Cropped (crop_box w h) (Decoded (content (upload f)) pic))
              username st) as [m' Hm'].
  { cbn [Image_source]. intros [Hl _]. congruence. }
  rewrite Hm'. f_equal. f_equal. f_equal.
  revert Hm'. unfold scale_and_store. cbn [for_each].
  unfold mbind at 1. unfold StateExn_bind at 1. unfold lift at 1.
  unfold mbind at 1. unfold StateExn_bind at 1.
  unfold get_scaled_image_file, Image_resize. cbn [Image_source].
  rewrite Hload. now intros [= ->].
Qed.

Lemma generate_profile_images_eq (f : File) (username : string)
    (st : Storage) (pic : Picture) :
  picture (upload f) = Some pic -> writable_as_JPEG pic ->
  let thumb := thumbnail (squared (upload f) pic) in
  let name := name_profile_image username in
  generate_profile_images f username st =
  (Return tt,
   <[name 500%Z := thumb 500%Z]> (<[name 120%Z := thumb 120%Z]>
     (<[name 50%Z := thumb 50%Z]> (<[name 30%Z := thumb 30%Z]> st)))).
Proof.
  intros Hpic Hw. cbv zeta.
  rewrite (generate_profile_images_unfold _ _ _ pic Hpic).
  apply scale_and_store_ok. now rewrite squared_source.
Qed.

Lemma generate_profile_images_unwritable (f : File) (username : string)
    (st : Storage) (pic : Picture) :
  picture (upload f) = Some pic -> ~ writable_as_JPEG pic ->
  exists message,
    generate_profile_images f username st = (Raise (IOError message), st).
Proof.
  intros Hpic Hw.
  rewrite (generate_profile_images_unfold _ _ _ pic Hpic).
  apply scale_and_store_fails. now rewrite squared_source.
Qed.

Lemma generate_profile_images_undecodable (f : File) (username : string)
    (st : Storage) :
  picture (upload f) = None ->
  generate_profile_images f username st =
  (Raise (IOError "cannot identify image file"), st).
Proof.
  intros Hpic. unfold generate_profile_images, Image_open. now rewrite Hpic.
Qed.

(** [generate_profile_images] returns exactly for the files whose picture
    the library opens, loads and writes as JPEG; otherwise it raises
    [IOError] and leaves the storage as it was. *)
Lemma generate_profile_images_cases (f : File) (username : string)
    (st : Storage) :
  (exists pic,
     picture (upload f) = Some pic /\ writable_as_JPEG pic /\
     fst (generate_profile_images f username st) = Return tt) \/
  (exists message,
     generate_profile_images f username st = (Raise (IOError message), st)).
Proof.
  destruct (picture (upload f)) as [pic|] eqn:Hpic.
  - destruct (writable_dec pic) as [Hw|Hw].
    + left. exists pic. split; [reflexivity|]. split; [exact Hw|].
      now rewrite (generate_profile_images_eq _ _ _ pic Hpic Hw).
    + right. now apply (generate_profile_images_unwritable _ _ _ pic).
  - right. eexists. now apply generate_profile_images_undecodable.
Qed.


(** What is stored under each name once the four thumbnails are in. *)
Lemma thumbnails_lookup (username : string) (thumb : Z -> ContentFile)
    (st : Storage) :
  let name := name_profile_image username in
  let st' := <[name 500%Z := thumb 500%Z]> (<[name 120%Z := thumb 120%Z]>
               (<[name 50%Z := thumb 50%Z]> (<[name 30%Z := thumb 30%Z]> st))) in
  (forall side, In side thumbnail_sides -> st' !! name side = Some (thumb side))
  /\ (forall k, ~ In k (map name thumbnail_sides) -> st' !! k = st !! k).
Proof.
  cbv zeta. split.
  - intros side Hin.
    assert (Hne : forall s s', s <> s' ->
              name_profile_image username s <> name_profile_image username s')
      by (intros s s' Hss Heq; now apply Hss, (name_profile_image_inj username)).
    cbn in Hin. destruct Hin as [<-|[<-|[<-|[<-|[]]]]];
      repeat (first [rewrite lookup_insert_eq; reflexivity
                    |rewrite lookup_insert_ne by (apply Hne; lia)]).
  - intros k Hk. cbn in Hk.
    rewrite !lookup_insert_ne by (intros Heq; apply Hk; rewrite Heq; tauto).
    reflexivity.
Qed.


Lemma crop_box_min (w h : Z) :
  let side := Z.min w h in
  crop_box w h =
  ((w - side) / 2, (h - side) / 2, (w + side) / 2, (h + side) / 2)%Z.
Proof.
  cbv zeta. unfold crop_box. destruct (Z.ltb_spec w h).
  - now rewrite Z.min_l by lia.
  - now rewrite Z.min_r by lia.
Qed.

(** The crop box spans [side] pixels and sits in the middle. *)
Lemma crop_interval (total side : Z) :
  (side <= total)%Z ->
  ((total + side) / 2 - (total - side) / 2 = side)%Z /\
  centered ((total - side) / 2) ((total + side) / 2) total.
Proof.
  intros Hle. unfold centered.
  Z.to_euclidean_division_equations. lia.
Qed.

(** C3: a picture whose width differs from its height is first
    center-cropped to the square whose side is the smaller of the two:
    [generate_profile_images] runs its scaling loop on the picture cropped
    to the box ((width-side)/2, (height-side)/2, (width+side)/2,
    (height+side)/2), which under integer division spans side pixels in
    each dimension and is centered; every thumbnail it stores is the
    scaled cropped picture.  A square picture is scaled as it is, with no
    crop.  Nothing is assumed about the library loading or encoding the
    picture: when it does neither, the call raises what the loop raises
    on the cropped picture in the first case and on the original in the
    second, and nothing is said of thumbnails. *)
Theorem generate_profile_images_center_crop (f : File) (username : string)
    (st : Storage) (pic : Picture) (w h : Z) :
  picture (upload f) = Some pic -> pic_size pic = (w, h) ->
  let original := Decoded (content (upload f)) pic in
  let run := generate_profile_images f username st in
  (w <> h ->
   let side := Z.min w h in
   let box := ((w - side) / 2, (h - side) / 2,
               (w + side) / 2, (h + side) / 2)%Z in
   run = scale_and_store (Cropped box original) username st /\
   Image_size (Cropped box original) = (side, side) /\
   centered ((w - side) / 2) ((w + side) / 2) w /\
   centered ((h - side) / 2) ((h + side) / 2) h /\
   (fst run = Return tt ->
    forall s, In s [30; 50; 120; 500]%Z ->
      snd run !! name_profile_image username s =
      Some (JPEG (Resized (s, s) ANTIALIAS (Cropped box original))))) /\
  (w = h ->
   run = scale_and_store original username st /\
   (fst run = Return tt ->
    forall s, In s [30; 50; 120; 500]%Z ->
      snd run !! name_profile_image username s =
      Some (JPEG (Resized (s, s) ANTIALIAS original)))).
Proof.
  intros Hpic Hsize. cbv zeta.
  rewrite (generate_profile_images_unfold _ _ _ pic Hpic).
  assert (Hstored : forall im,
    fst (scale_and_store im username st) = Return tt ->
    forall s, In s [30; 50; 120; 500]%Z ->
      snd (scale_and_store im username st) !! name_profile_image username s
      = Some (JPEG (Resized (s, s) ANTIALIAS im))).
  { intros im Hrun s Hs.
    destruct (writable_dec (Image_source im)) as [Hw|Hw].
    - rewrite (scale_and_store_ok im username st Hw). cbn [snd].
      destruct (thumbnails_lookup username (thumbnail im) st) as [Hin _].
      apply (Hin s Hs).
    - destruct (scale_and_store_fails im username st Hw) as [m Hm].
      rewrite Hm in Hrun. discriminate Hrun. }
  split.
  - intros Hne.
    assert (Hsq : squared (upload f) pic =
                  Cropped ((w - Z.min w h) / 2, (h - Z.min w h) / 2,
                           (w + Z.min w h) / 2, (h + Z.min w h) / 2)%Z
                          (Decoded (content (upload f)) pic)).
    { unfold squared. rewrite Hsize, <- crop_box_min.
      destruct (Z.eqb_spec w h); [contradiction|reflexivity]. }
    rewrite Hsq.
    destruct (crop_interval w (Z.min w h)) as [Hw Hcw]; [lia|].
    destruct (crop_interval h (Z.min w h)) as [Hh Hch]; [lia|].
    split; [reflexivity|].
    split; [cbn [Image_size]; now rewrite Hw, Hh|].
    split; [assumption|]. split; [assumption|]. apply Hstored.
  - intros ->.
    assert (Hsq : squared (upload f) pic = Decoded (content (upload f)) pic)
      by (unfold squared; now rewrite Hsize, Z.eqb_refl).
    rewrite Hsq. split; [reflexivity|apply Hstored].
Qed.

(** C9: the name of a stored profile image is the hexadecimal MD5 digest
    of the user name followed by '_profile_', the side and '.jpeg';
    [store_profile_image] saves after deleting the file of that name, so
    that the file goes under exactly that name and no other name is
    created: the storage holds one file for the pair at most, and a
    repeated upload replaces the previous picture. *)
Theorem store_profile_image_replaces (image_file image_file' : ContentFile)
    (side : Z) (username : string) (st : Storage) :
  let name := md5_hexdigest username ++ "_profile_" ++ str_of_int side
              ++ ".jpeg" in
  let st' := snd (store_profile_image image_file side username st) in
  let st'' := snd (store_profile_image image_file' side username st') in
  name_profile_image username side = name /\
  store_profile_image image_file side username st =
    storage_save name image_file (delete name st) /\
  store_profile_image image_file side username st =
    (Return name, <[name := image_file]> st) /\
  st' !! name = Some image_file /\
  (forall k, k <> name -> st' !! k = st !! k) /\
  dom st' = {[name]} ∪ dom st /\
  st'' !! name = Some image_file' /\
  dom st'' = dom st'.
Proof.
  cbv zeta. fold (name_profile_image username side).
  rewrite !store_profile_image_eq. cbn [snd].
  set (name := name_profile_image username side).
  repeat split.
  - unfold storage_save.
    rewrite get_available_name_free by apply lookup_delete_eq.
    now rewrite insert_delete_eq.
  - apply lookup_insert_eq.
  - intros k Hk. now rewrite lookup_insert_ne.
  - apply dom_insert_L.
  - apply lookup_insert_eq.
  - rewrite insert_insert_eq. now rewrite !dom_insert_L.
Qed.

End WithHashlib.

(** C2, the defect: three uploads that [validate_profile_image] accepts
    and for which [generate_profile_images] stores no thumbnail: a file
    of a hundred bytes that starts like a JPEG and is no picture, which
    [Image.open] refuses; a GIF with a palette, whose mode the JPEG
    encoder does not write; a JPEG cut short, whose pixel data do not
    load.  Each time [IOError] is raised and the storage is as it was. *)
Theorem validated_uploads_without_thumbnails :
  let validated u :=
    exists ft,
      fst (validate_profile_image (uploaded u) (content_type u)) = Return ft in
  let raises u :=
    exists message,
      generate_profile_images (H := Samples.digest) (I := Samples.pil)
        (uploaded u) "alice" ∅ = (Raise (IOError message), ∅) in
  (validated Samples.broken /\ raises Samples.broken) /\
  (validated Samples.palette_gif /\ raises Samples.palette_gif) /\
  (validated Samples.truncated /\ raises Samples.truncated).
Proof.
  cbv zeta. repeat split; eexists; vm_compute; reflexivity.
Qed.


Lemma generate_profile_images_center_crop_witness :
  generate_profile_images (H := Samples.digest) (I := Samples.pil)
    (uploaded Samples.photo) "alice" ∅ =
  scale_and_store (H := Samples.digest) (H0 := Samples.pil)
    (Cropped (40, 0, 280, 240)%Z
       (Decoded (content Samples.photo) (Samples.sound "RGB" 320 240)))
    "alice" ∅.
Proof.
  destruct (generate_profile_images_center_crop (H := Samples.digest)
              (I := Samples.pil) (uploaded Samples.photo) "alice" ∅
              (Samples.sound "RGB" 320 240) 320 240 eq_refl eq_refl)
    as [Hcrop _].
  destruct Hcrop as (Hrun & _); [discriminate|]. exact Hrun.
Defined.

End ThumbnailFacts.

(** ** The upload view *)

Module ViewFacts.
Import ProfileImages PyFacts ValidationFacts ThumbnailFacts.

(** Validation leaves the file of an accepted upload rewound. *)
Lemma validate_rewinds types f ct ft f' :
  validate_with types f ct = (Return ft, f') -> f' = seek0 f.
Proof.
  unfold validate_with, read.
  repeat match goal with
         | |- context [if ?b then _ else _] => destruct b
         | |- context [match ?x with _ => _ end] => destruct x
         end;
    intros [= ]; subst; reflexivity.
Qed.

Lemma validate_raises_invalid u ct e :
  fst (validate_profile_image (uploaded u) ct) = Raise e ->
  (exists m, e = InvalidProfileImage m) \/ e = UnicodeEncodeError.
Proof.
  intros Hr. apply validate_iff_outcome in Hr. inversion Hr; eauto.
Qed.

Lemma forbidden_spec (request : Request) (username_ : string) :
  negb (String.eqb (username (user request)) username_)
  && negb (is_staff (user request)) = true <-> forbidden request username_.
Proof.
  unfold forbidden. rewrite andb_true_iff, !negb_true_iff.
  now rewrite String.eqb_neq.
Qed.

Lemma forbidden_dec (request : Request) (username_ : string) :
  forbidden request username_ \/ ~ forbidden request username_.
Proof.
  rewrite <- forbidden_spec. destruct (_ && _); [now left|right; discriminate].
Qed.

Section WithHashlib.
Context {H : Hashlib} {I : Imaging}.

Lemma post_forbidden request username_ st :
  forbidden request username_ ->
  post request username_ st = (Return {| data := None; status := 403 |}, st).
Proof.
  intros Hf. apply forbidden_spec in Hf. unfold post. now rewrite Hf.
Qed.

Lemma post_no_file request username_ st :
  ~ forbidden request username_ -> FILES request !! "file" = None ->
  post request username_ st = (Return {| data := None; status := 400 |}, st).
Proof.
  intros Hf Hnone. rewrite <- forbidden_spec in Hf.
  apply not_true_is_false in Hf. unfold post. now rewrite Hf, Hnone.
Qed.

(** With a file, the view follows the outcome of the validation. *)
Lemma post_with_file request username_ st u :
  ~ forbidden request username_ -> FILES request !! "file" = Some u ->
  post request username_ st =
  match fst (validate_profile_image (uploaded u) (content_type u)) with
  | Return _ =>
      (generate_profile_images (uploaded u) username_ ;;
       mret success_response) st
  | Raise (InvalidProfileImage message) =>
      (Return (error_response message), st)
  | Raise e => (Raise e, st)
  end.
Proof.
  intros Hf Hfile. rewrite <- forbidden_spec in Hf.
  apply not_true_is_false in Hf. unfold post. rewrite Hf, Hfile.
  destruct (validate_profile_image (uploaded u) (content_type u))
    as [[ft|e] f'] eqn:Hv; cbn [fst].
  - apply validate_rewinds in Hv. now subst f'.
  - now destruct e.
Qed.

Lemma post_invalid request username_ st u message :
  ~ forbidden request username_ -> FILES request !! "file" = Some u ->
  fst (validate_profile_image (uploaded u) (content_type u)) =
    Raise (InvalidProfileImage message) ->
  post request username_ st = (Return (error_response message), st).
Proof.
  intros Hf Hfile Hv. rewrite (post_with_file _ _ _ u Hf Hfile). now rewrite Hv.
Qed.

Lemma post_valid request username_ st u ft :
  ~ forbidden request username_ -> FILES request !! "file" = Some u ->
  fst (validate_profile_image (uploaded u) (content_type u)) = Return ft ->
  post request username_ st =
  (generate_profile_images (uploaded u) username_ ;; mret success_response) st.
Proof.
  intros Hf Hfile Hv. rewrite (post_with_file _ _ _ u Hf Hfile). now rewrite Hv.
Qed.

Lemma post_not_ascii request username_ st u :
  ~ forbidden request username_ -> FILES request !! "file" = Some u ->
  fst (validate_profile_image (uploaded u) (content_type u)) =
    Raise UnicodeEncodeError ->
  post request username_ st = (Raise UnicodeEncodeError, st).
Proof.
  intros Hf Hfile Hv. rewrite (post_with_file _ _ _ u Hf Hfile). now rewrite Hv.
Qed.


Lemma post_valid_unwritable request username_ st u ft pic :
  ~ forbidden request username_ -> FILES request !! "file" = Some u ->
  fst (validate_profile_image (uploaded u) (content_type u)) = Return ft ->
  picture u = Some pic -> ~ writable_as_JPEG pic ->
  exists message, post request username_ st = (Raise (IOError message), st).
Proof.
  intros Hf Hfile Hv Hpic Hw. rewrite (post_valid _ _ _ u ft Hf Hfile Hv).
  destruct (generate_profile_images_unwritable (uploaded u) username_ st pic
              Hpic Hw) as [m Hm].
  exists m. unfold mbind, StateExn_bind. now rewrite Hm.
Qed.

Lemma post_valid_no_picture request username_ st u ft :
  ~ forbidden request username_ -> FILES request !! "file" = Some u ->
  fst (validate_profile_image (uploaded u) (content_type u)) = Return ft ->
  picture u = None ->
  post request username_ st =
  (Raise (IOError "cannot identify image file"), st).
Proof.
  intros Hf Hfile Hv Hpic. rewrite (post_valid _ _ _ u ft Hf Hfile Hv).
  unfold mbind, StateExn_bind.
  now rewrite (generate_profile_images_undecodable (uploaded u) _ _ Hpic).
Qed.

Lemma message_of_sniffing c : sniffing_message (message_of c).
Proof. unfold sniffing_message. destruct c; cbn; tauto. Qed.

(** The code checks the size first and sniffs the file type second. *)
Lemma validate_size_then_sniffing u ct :
  size_then_sniffing u ct (fst (validate_profile_image (uploaded u) ct)).
Proof.
  unfold size_then_sniffing, raises_with, size_message.
  destruct (validate_outcome u ct) as [Hl|Hs|Hin Hname|c Hc|ft Hp]; split.
  - intros _. eexists. split; [|reflexivity]. now left.
  - unfold size_in_range, PROFILE_IMAGE_MAX_BYTES in *. lia.
  - intros _. eexists. split; [|reflexivity]. now right.
  - unfold size_in_range, PROFILE_IMAGE_MIN_BYTES in *. lia.
  - intros Hsize. contradiction.
  - intros _ [s Hs] _. unfold name_str in Hs. congruence.
  - intros Hsize. now apply check_fails_size in Hc.
  - intros _ _ _. eexists. split; [apply message_of_sniffing|reflexivity].
  - intros Hsize. now destruct Hp.
  - intros _ _ Hno. exfalso. apply Hno. destruct Hp as [_ Hp]. now exists ft.
Qed.

(** C4, as amended: the pipeline is a linear sequence of size checks, then
    file-type sniffing (extension, mimetype, magic bytes), then image
    resizing.  A file out of the size range is rejected with a size
    message whatever its type and name; a file in the range, with a name
    in ASCII, that fails the sniffing is rejected with the message of the
    sniffing; resizing runs once both have passed, and only then. *)
Theorem upload_pipeline_order (request : Request) (username_ : string)
    (st : Storage) (u : Upload) :
  ~ forbidden request username_ -> FILES request !! "file" = Some u ->
  let result := fst (validate_profile_image (uploaded u) (content_type u)) in
  size_then_sniffing u (content_type u) result /\
  (forall message,
     result = Raise (InvalidProfileImage message) ->
     post request username_ st = (Return (error_response message), st)) /\
  (size_in_range u -> sniffing_passes u (content_type u) ->
   post request username_ st =
   (generate_profile_images (uploaded u) username_ ;;
    mret success_response) st).
Proof.
  intros Hf Hfile. cbv zeta. split; [apply validate_size_then_sniffing|split].
  - intros message Hv. now apply (post_invalid _ _ _ u).
  - intros Hsize [ft Hp].
    apply (post_valid _ _ _ u ft Hf Hfile).
    apply validate_iff_outcome, accepted. now split.
Qed.


(** C8: when [validate_profile_image] raises [InvalidProfileImage] for
    the upload, the view answers with an error and runs neither
    [generate_profile_images] nor [store_profile_image]: the storage is
    left as it was, no thumbnail is created or overwritten. *)
Theorem invalid_upload_keeps_storage (request : Request)
    (username_ : string) (st : Storage) (u : Upload) (message : string) :
  FILES request !! "file" = Some u ->
  fst (validate_profile_image (uploaded u) (content_type u)) =
    Raise (InvalidProfileImage message) ->
  snd (post request username_ st) = st /\
  (fst (post request username_ st) = Return (error_response message) \/
   fst (post request username_ st) =
     Return {| data := None; status := 403 |}).
Proof.
  intros Hfile Hv. destruct (forbidden_dec request username_) as [Hf|Hf].
  - rewrite post_forbidden by assumption. split; [reflexivity|now right].
  - rewrite (post_invalid _ _ _ u message) by assumption.
    split; [reflexivity|now left].
Qed.

End WithHashlib.

(** The order the specification states, sniffing before the size checks,
    is not the order of the code: a bitmap below the minimum size is
    rejected for its size, not for its type. *)
Lemma sniffing_is_not_first :
  ~ sniffing_then_size Samples.tiny_bitmap "image/bmp"
      (fst (validate_profile_image (uploaded Samples.tiny_bitmap) "image/bmp")).
Proof.
  intros [Hsniff _].
  destruct Hsniff as (m & Hm & Hr).
  - intros (ft & exts & mimes & magics & Hrow & Hok & _).
    apply (extension_ok_spec Samples.tiny_bitmap "dot.bmp" exts eq_refl) in Hok.
    destruct Hrow; vm_compute in Hok; discriminate Hok.
  - vm_compute in Hr. injection Hr as <-.
    destruct Hm as [Hm|[Hm|Hm]]; discriminate Hm.
Qed.

Lemma upload_pipeline_order_witness :
  post (H := Samples.digest) (I := Samples.pil)
    (Samples.request_with Samples.bitmap) "alice" ∅ =
  (Return (error_response "Unsupported file type."), ∅).
Proof.
  destruct (upload_pipeline_order (H := Samples.digest) (I := Samples.pil)
              (Samples.request_with Samples.bitmap) "alice" ∅ Samples.bitmap)
    as (_ & Herr & _).
  - intros [Hne _]. now apply Hne.
  - reflexivity.
  - apply Herr. reflexivity.
Defined.

(** C6, the defect: requests of a user for their own picture, each with
    a file, to which the view gives no response at all, neither the 400
    of an invalid picture nor the body of success.  A file of a hundred
    bytes that starts like a JPEG, a GIF with a palette and a JPEG cut
    short pass the validation, and the [IOError] of the imaging library
    leaves the view; a JPEG with an accented name stops the validation
    with [UnicodeEncodeError], which is no [InvalidProfileImage] and
    leaves the view as well. *)
Theorem post_without_response :
  let post_ u :=
    post (H := Samples.digest) (I := Samples.pil)
      (Samples.request_with u) "alice" ∅ in
  let validate u :=
    fst (validate_profile_image (uploaded u) (content_type u)) in
  let allowed u :=
    ~ forbidden (Samples.request_with u) "alice" /\
    FILES (Samples.request_with u) !! "file" = Some u in
  (allowed Samples.broken /\
   validate Samples.broken = Return "jpeg" /\
   post_ Samples.broken = (Raise (IOError "cannot identify image file"), ∅)) /\
  (allowed Samples.palette_gif /\
   validate Samples.palette_gif = Return "gif" /\
   post_ Samples.palette_gif =
     (Raise (IOError "cannot write mode P as JPEG"), ∅)) /\
  (allowed Samples.truncated /\
   validate Samples.truncated = Return "jpeg" /\
   post_ Samples.truncated = (Raise (IOError "image file is truncated"), ∅)) /\
  (allowed Samples.accented_photo /\
   validate Samples.accented_photo = Raise UnicodeEncodeError /\
   post_ Samples.accented_photo = (Raise UnicodeEncodeError, ∅)).
Proof.
  cbv zeta.
  assert (Hf : forall u, ~ forbidden (Samples.request_with u) "alice")
    by (intros u [Hne _]; now apply Hne).
  repeat split; try apply Hf; vm_compute; reflexivity.
Qed.


Lemma invalid_upload_keeps_storage_witness :
  snd (post (H := Samples.digest) (I := Samples.pil)
         (Samples.request_with Samples.bitmap) "alice" ∅) = ∅.
Proof.
  apply (invalid_upload_keeps_storage (H := Samples.digest) (I := Samples.pil)
           (Samples.request_with Samples.bitmap) "alice" ∅ Samples.bitmap
           "Unsupported file type.").
  - reflexivity.
  - reflexivity.
Defined.

End ViewFacts.

(** ** The e-commerce client *)

Module CommerceFacts.
Import Commerce.

Section WithLibraries.
Context `{Libraries}.

(** C10, as amended: [create_order] returns the decoded body of the
    response when the status is 200, and only then; for every other
    status whose body is a JSON object it logs an error and returns
    [None] without raising; when the body is not valid JSON it logs an
    error and raises [JSONDecodeError] again. *)
Theorem create_order_outcomes (self : EommerceAPI) (user : User)
    (sku : string) (log : Log) (response : HttpResponse) :
  (forall url data headers timeout,
     requests_post url data headers timeout = response) ->
  let result := create_order self user sku log in
  (forall data,
     body response = Some data -> status_code response = 200%Z ->
     result = (Return data, log)) /\
  (forall data,
     body response = Some data -> fst result = Return data ->
     status_code response = 200%Z) /\
  (forall d,
     body response = Some (JDict d) -> status_code response <> 200%Z ->
     result =
     (Return JNull,
      (log ++ [{| level := ERROR;
                  msg := "Response from E-Commerce API was invalid: (%(status)d) - %(msg)s";
                  args := [("status", JInt (status_code response));
                           ("msg", assoc_get d "user_message")] |}])%list)) /\
  (body response = None ->
   result =
   (Raise JSONDecodeError,
    (log ++ [{| level := ERROR;
                msg := "E-Commerce API response is not valid JSON.";
                args := [] |}])%list)).
Proof.
  intros Hresp. cbv zeta. unfold create_order. rewrite Hresp.
  unfold response_json. split; [|split; [|split]].
  - intros data -> ->. reflexivity.
  - intros data ->. unfold HTTP_200_OK.
    destruct (Z.eqb_spec (status_code response) 200) as [Heq|Hne];
      [intros _; exact Heq|].
    destruct data; cbn; try discriminate.
  - intros d -> Hne. unfold HTTP_200_OK.
    destruct (Z.eqb_spec (status_code response) 200) as [Heq|_];
      [contradiction|reflexivity].
  - intros ->. reflexivity.
Qed.

End WithLibraries.

(** A body that is valid JSON and no object: the client raises
    [AttributeError] instead of returning [None], and logs nothing. *)
Lemma create_order_raises_on_array :
  Commerce.body (Commerce.requests_post (Libraries := Samples.failing_service)
                   "" "" [] 0%Z) = Some (JList []) /\
  Commerce.status_code (Commerce.requests_post
                          (Libraries := Samples.failing_service)
                          "" "" [] 0%Z) <> 200%Z /\
  create_order (H := Samples.failing_service)
    Samples.api Samples.buyer "course-seat" [] =
  (Raise (AttributeError "'list' object has no attribute 'get'"), []).
Proof. repeat split. discriminate. Qed.

Lemma create_order_outcomes_witness :
  create_order (H := Samples.refusing_service)
    Samples.api Samples.buyer "course-seat" [] =
  (Return JNull,
   [{| level := ERROR;
       msg := "Response from E-Commerce API was invalid: (%(status)d) - %(msg)s";
       args := [("status", JInt 409); ("msg", JStr "Already enrolled.")] |}]).
Proof.
  destruct (create_order_outcomes (H := Samples.refusing_service)
              Samples.api Samples.buyer "course-seat" []
              {| status_code := 409;
                 body := Some (JDict [("user_message",
                                       JStr "Already enrolled.")]) |})
    as (_ & _ & Hrefused & _).
  - reflexivity.
  - apply (Hrefused [("user_message", JStr "Already enrolled.")]).
    + reflexivity.
    + discriminate.
Defined.

End CommerceFacts.

(** ** The tests of the repository, run on the model *)

Module RepositoryTests.
Import ProfileImages Samples.

Example test_upload_self :
  client_post the_user {["file" := make_image_file (320, 240)%Z ".jpeg" None]}
  = (Return success_response, thumbnails_exist).
Proof. vm_compute. reflexivity. Qed.

Example test_upload_other :
  client_post different_user
    {["file" := make_image_file (320, 240)%Z ".jpeg" None]}
  = (Return {| data := None; status := 403 |}, thumbnails_missing).
Proof. vm_compute. reflexivity. Qed.

Example test_upload_staff :
  client_post staff_user
    {["file" := make_image_file (320, 240)%Z ".jpeg" None]}
  = (Return success_response, thumbnails_exist).
Proof. vm_compute. reflexivity. Qed.

Example test_upload_missing_file :
  client_post the_user ∅
  = (Return {| data := None; status := 400 |}, thumbnails_missing).
Proof. vm_compute. reflexivity. Qed.

Example test_upload_file_too_large :
  client_post the_user
    {["file" := make_image_file (320, 240)%Z ".jpeg"
                  (Some (1024 * 1024 + 1)%Z)]}
  = (Return (error_response DEV_MSG_FILE_TOO_LARGE), thumbnails_missing).
Proof. vm_compute. reflexivity. Qed.

Example test_upload_file_too_small :
  client_post the_user
    {["file" := make_image_file (1, 1)%Z ".png" (Some 99%Z)]}
  = (Return (error_response DEV_MSG_FILE_TOO_SMALL), thumbnails_missing).
Proof. vm_compute. reflexivity. Qed.

Example test_upload_bad_extension :
  client_post the_user {["file" := make_image_file (320, 240)%Z ".bmp" None]}
  = (Return (error_response DEV_MSG_FILE_BAD_TYPE), thumbnails_missing).
Proof. vm_compute. reflexivity. Qed.

(** A bitmap renamed to .jpeg. *)
Example test_upload_wrong_extension :
  let bmp_file := make_image_file (320, 240)%Z ".bmp" None in
  let fake_jpeg_file :=
    file_of (unicode_of "tmpk2v9xa.jpeg") "image/jpeg" (content bmp_file)
            (picture bmp_file) in
  client_post the_user {["file" := fake_jpeg_file]}
  = (Return (error_response DEV_MSG_FILE_BAD_EXT), thumbnails_missing).
Proof. vm_compute. reflexivity. Qed.

(** A JPEG announced as a GIF. *)
Example test_upload_bad_content_type :
  let jpeg_file := make_image_file (320, 240)%Z ".jpeg" None in
  let announced :=
    file_of (name jpeg_file) "image/gif" (content jpeg_file)
            (picture jpeg_file) in
  client_post the_user {["file" := announced]}
  = (Return (error_response DEV_MSG_FILE_BAD_MIMETYPE), thumbnails_missing).
Proof. vm_compute. reflexivity. Qed.

Example test_resize :
  Forall (fun dimensions =>
            client_post the_user
              {["file" := make_image_file dimensions ".jpeg" None]}
            = (Return success_response, thumbnails_exist))
         [(1, 1); (10, 10); (100, 100); (1000, 1000);
          (1, 10); (10, 100); (100, 1000); (1000, 999)]%Z.
Proof. repeat constructor; vm_compute; reflexivity. Qed.

End RepositoryTests.

(** * Further properties of the code *)

(** ** The file cursor and the table order in [validate_profile_image] *)

Module ValidationExtras.
Import ProfileImages PyFacts ValidationFacts.

(** An accepted file is handed back rewound, wherever its cursor was
    before the call, and its content is untouched. *)
Theorem validate_accepts_rewound (f f' : File) (ct ft : string) :
  validate_profile_image f ct = (Return ft, f') ->
  tell f' = 0 /\ upload f' = upload f.
Proof.
  unfold validate_profile_image, validate_with, read.
  repeat match goal with
         | |- context [if ?b then _ else _] => destruct b
         | |- context [match ?x with _ => _ end] => destruct x
         end;
    intros [= ]; subst; split; reflexivity.
Qed.

Lemma validate_accepts_rewound_witness :
  tell (snd (validate_profile_image
               {| upload := Samples.photo; tell := 0 |} "image/jpeg")) = 0.
Proof.
  apply (validate_accepts_rewound
           {| upload := Samples.photo; tell := 0 |} _ "image/jpeg" "jpeg").
  vm_compute. reflexivity.
Defined.



Lemma validate_order_irrelevant_witness :
  validate_with (rev image_types) (uploaded Samples.photo) "image/jpeg" =
  validate_profile_image (uploaded Samples.photo) "image/jpeg".
Proof.
  apply validate_order_irrelevant. apply Permutation_rev.
Defined.

End ValidationExtras.

(** ** Names, crops and repeated uploads *)

Module ThumbnailExtras.
Import ProfileImages PyFacts ThumbnailFacts.

Lemma string_app_eq_length (a a' b b' : string) :
  a ++ b = a' ++ b' -> String.length a = String.length a' ->
  a = a' /\ b = b'.
Proof.
  revert a'. induction a as [|c a IH]; intros [|c' a'] Heq Hlen;
    try discriminate Hlen.
  - now split.
  - change (String c (a ++ b) = String c' (a' ++ b')) in Heq.
    injection Heq as -> Heq. injection Hlen as Hlen.
    destruct (IH a' Heq Hlen) as [-> ->]. now split.
Qed.

Section WithHashlib.
Context {H : Hashlib} {I : Imaging}.

(** Digests of one length, as those of MD5 are: the name of a stored
    picture tells the digest of the user and the side. *)
Theorem name_profile_image_injective (username username' : string)
    (side side' : Z) :
  String.length (md5_hexdigest username) =
    String.length (md5_hexdigest username') ->
  name_profile_image username side = name_profile_image username' side' ->
  md5_hexdigest username = md5_hexdigest username' /\ side = side'.
Proof.
  unfold name_profile_image. intros Hlen Heq.
  destruct (string_app_eq_length _ _ _ _ Heq Hlen) as [Hd Hrest].
  split; [exact Hd|].
  apply String.app_inj in Hrest. apply string_app_inv_tail in Hrest.
  now apply pretty_Z_inj in Hrest.
Qed.

(** The thumbnails of a user whose digest differs are out of reach of
    [generate_profile_images] for another user. *)
Theorem generate_profile_images_other_user (f : File)
    (username username' : string) (side' : Z) (st : Storage) :
  String.length (md5_hexdigest username) =
    String.length (md5_hexdigest username') ->
  md5_hexdigest username <> md5_hexdigest username' ->
  snd (generate_profile_images f username st)
    !! name_profile_image username' side'
  = st !! name_profile_image username' side'.
Proof.
  intros Hlen Hne.
  destruct (picture (upload f)) as [pic|] eqn:Hpic.
  - destruct (writable_dec pic) as [Hw|Hw].
    + rewrite (generate_profile_images_eq _ _ _ pic Hpic Hw). cbn [snd].
      apply thumbnails_lookup. intros Hin. apply in_map_iff in Hin
        as (side & Hname & _).
      now destruct (name_profile_image_injective _ _ _ _ Hlen Hname).
    + destruct (generate_profile_images_unwritable f username st pic
                  Hpic Hw) as [m Hm].
      now rewrite Hm.
  - now rewrite (generate_profile_images_undecodable _ _ _ Hpic).
Qed.

(** A second upload whose picture the imaging library opens, loads and
    writes as JPEG replaces the first altogether, whatever the first
    was: the storage is as if the first had never been made. *)
Theorem generate_profile_images_overwrites (f1 f2 : File)
    (username : string) (st : Storage) (pic2 : Picture) :
  picture (upload f2) = Some pic2 -> writable_as_JPEG pic2 ->
  generate_profile_images f2 username
    (snd (generate_profile_images f1 username st))
  = generate_profile_images f2 username st.
Proof.
  intros Hp2 Hw2.
  destruct (generate_profile_images_cases f1 username st)
    as [(pic1 & Hp1 & Hw1 & _)|[m Hm]]; [|now rewrite Hm].
  rewrite (generate_profile_images_eq f1 _ _ pic1 Hp1 Hw1). cbn [snd].
  rewrite !(generate_profile_images_eq f2 _ _ pic2 Hp2 Hw2).
  f_equal. apply map_eq. intros k.
  set (thumb1 := thumbnail (squared (upload f1) pic1)).
  set (thumb2 := thumbnail (squared (upload f2) pic2)).
  destruct (thumbnails_lookup username thumb1 st) as [_ Hout1].
  destruct (thumbnails_lookup username thumb2 st) as [Hin2 Hout2].
  match goal with
  | |- ?l !! k = _ =>
      match l with
      | context [<[_ := thumb1 30%Z]> st] =>
          set (st1 := <[name_profile_image username 500%Z := thumb1 500%Z]>
                        (<[name_profile_image username 120%Z := thumb1 120%Z]>
                           (<[name_profile_image username 50%Z := thumb1 50%Z]>
                              (<[name_profile_image username 30%Z
                                 := thumb1 30%Z]> st))))
      end
  end.
  destruct (thumbnails_lookup username thumb2 st1) as [Hin21 Hout21].
  destruct (in_dec string_dec k
              (map (name_profile_image username) thumbnail_sides))
    as [Hin|Hnot].
  - apply in_map_iff in Hin as (side & <- & Hside).
    now rewrite (Hin21 side Hside), (Hin2 side Hside).
  - rewrite (Hout21 k Hnot), (Hout2 k Hnot). apply (Hout1 k Hnot).
Qed.


(** A landscape picture keeps its whole height and a portrait picture its
    whole width: the crop trims the longer dimension only. *)
Theorem crop_box_trims_longer_dimension (w h : Z) :
  ((h < w)%Z -> crop_box w h = ((w - h) / 2, 0, (w + h) / 2, h)%Z) /\
  ((w < h)%Z -> crop_box w h = (0, (h - w) / 2, w, (h + w) / 2)%Z).
Proof.
  assert (Hzero : forall x, ((x - x) / 2 = 0)%Z)
    by (intros x; rewrite Z.sub_diag; reflexivity).
  assert (Hfull : forall x, ((x + x) / 2 = x)%Z)
    by (intros x; Z.to_euclidean_division_equations; lia).
  unfold crop_box. split; intros Hlt.
  - destruct (Z.ltb_spec w h); [lia|]. now rewrite Hzero, Hfull.
  - destruct (Z.ltb_spec w h); [|lia]. now rewrite Hzero, Hfull.
Qed.

Lemma crop_box_trims_longer_dimension_witness :
  crop_box 320 240 = (40, 0, 280, 240)%Z.
Proof.
  destruct (crop_box_trims_longer_dimension 320 240) as [Hland _].
  apply Hland. lia.
Defined.

End WithHashlib.

Lemma name_profile_image_injective_witness :
  md5_hexdigest (Hashlib := Samples.digest) "alice" =
    md5_hexdigest (Hashlib := Samples.digest) "alice" /\ 30%Z = 30%Z.
Proof.
  apply (name_profile_image_injective (H := Samples.digest)
           "alice" "alice" 30 30); reflexivity.
Defined.

Lemma generate_profile_images_other_user_witness :
  snd (generate_profile_images (H := Samples.digest) (I := Samples.pil)
         (uploaded Samples.photo) "alice" ∅)
    !! name_profile_image (H := Samples.digest) "carol" 30
  = (∅ : Storage) !! name_profile_image (H := Samples.digest) "carol" 30.
Proof.
  apply (generate_profile_images_other_user (H := Samples.digest)
           (I := Samples.pil)).
  - reflexivity.
  - discriminate.
Defined.

Lemma generate_profile_images_overwrites_witness :
  generate_profile_images (H := Samples.digest) (I := Samples.pil)
    (uploaded Samples.photo) "alice"
    (snd (generate_profile_images (H := Samples.digest) (I := Samples.pil)
            (uploaded Samples.bitmap) "alice" ∅))
  = generate_profile_images (H := Samples.digest) (I := Samples.pil)
      (uploaded Samples.photo) "alice" ∅.
Proof.
  apply (generate_profile_images_overwrites (H := Samples.digest)
           (I := Samples.pil)
           (uploaded Samples.bitmap) (uploaded Samples.photo) "alice" ∅
           (Samples.sound "RGB" 320 240)).
  - reflexivity.
  - split; [reflexivity|cbn; tauto].
Defined.

End ThumbnailExtras.

(** ** What the view stores, and when *)

Module ViewExtras.
Import ProfileImages PyFacts ValidationFacts ThumbnailFacts ViewFacts.

Section WithHashlib.
Context {H : Hashlib} {I : Imaging}.

(** The ways a call of the view ends. *)
Lemma post_cases (request : Request) (username_ : string) (st : Storage) :
  (forbidden request username_ /\
   post request username_ st =
     (Return {| data := None; status := 403 |}, st)) \/
  (~ forbidden request username_ /\
   FILES request !! "file" = None /\
   post request username_ st =
     (Return {| data := None; status := 400 |}, st)) \/
  (exists u message,
     ~ forbidden request username_ /\
     FILES request !! "file" = Some u /\
     fst (validate_profile_image (uploaded u) (content_type u)) =
       Raise (InvalidProfileImage message) /\
     post request username_ st = (Return (error_response message), st)) \/
  (exists u e,
     ~ forbidden request username_ /\
     FILES request !! "file" = Some u /\
     post request username_ st = (Raise e, st)) \/
  (exists u ft pic,
     ~ forbidden request username_ /\
     FILES request !! "file" = Some u /\
     fst (validate_profile_image (uploaded u) (content_type u)) = Return ft /\
     picture u = Some pic /\ writable_as_JPEG pic /\
     post request username_ st =
       (Return success_response,
        snd (generate_profile_images (uploaded u) username_ st))).
Proof.
  destruct (forbidden_dec request username_) as [Hf|Hf].
  { left. split; [exact Hf|now apply post_forbidden]. }
  right. destruct (FILES request !! "file") as [u|] eqn:Hfile.
  2: { left. repeat split; try assumption. now apply post_no_file. }
  right.
  destruct (fst (validate_profile_image (uploaded u) (content_type u)))
    as [ft|e] eqn:Hv.
  - right. destruct (picture u) as [pic|] eqn:Hpic.
    + destruct (writable_dec pic) as [Hw|Hw].
      * right. exists u, ft, pic.
        split; [exact Hf|]. split; [reflexivity|]. split; [exact Hv|].
        split; [exact Hpic|]. split; [exact Hw|].
        rewrite (post_valid _ _ _ u ft Hf Hfile Hv).
        unfold mbind, StateExn_bind.
        now rewrite (generate_profile_images_eq (uploaded u) _ _ pic Hpic Hw).
      * left.
        destruct (post_valid_unwritable _ _ st u ft pic Hf Hfile Hv Hpic Hw)
          as [m Hm].
        exists u, (IOError m). now repeat split.
    + left. exists u, (IOError "cannot identify image file").
      split; [exact Hf|]. split; [reflexivity|].
      now apply (post_valid_no_picture _ _ _ u ft).
  - destruct (validate_raises_invalid _ _ _ Hv) as [[m ->]| ->].
    + left. exists u, m. repeat split; try assumption.
      now apply (post_invalid _ _ _ u m).
    + right. left. exists u, UnicodeEncodeError.
      split; [exact Hf|]. split; [reflexivity|].
      now apply (post_not_ascii _ _ _ u).
Qed.

(** The view writes nowhere but under the four names of the target user:
    every other file of the storage is as it was, whoever posts and
    whatever is posted. *)
Theorem post_touches_target_thumbnails_only (request : Request)
    (username_ : string) (st : Storage) (k : string) :
  ~ In k (map (name_profile_image username_) [30; 50; 120; 500]%Z) ->
  snd (post request username_ st) !! k = st !! k.
Proof.
  intros Hk.
  destruct (post_cases request username_ st)
    as [[_ ->]|[(_ & _ & ->)|[(u & m & _ & _ & _ & ->)
       |[(u & e & _ & _ & ->)
        |(u & ft & pic & _ & _ & _ & Hpic & Hw & ->)]]]]; try reflexivity.
  cbn [snd].
  rewrite (generate_profile_images_eq (uploaded u) _ _ pic Hpic Hw). cbn [snd].
  now apply thumbnails_lookup.
Qed.

(** Unless the view answers with success it has stored nothing. *)
Theorem post_stores_only_on_success (request : Request)
    (username_ : string) (st : Storage) :
  fst (post request username_ st) <> Return success_response ->
  snd (post request username_ st) = st.
Proof.
  intros Hne.
  destruct (post_cases request username_ st)
    as [[_ Hp]|[(_ & _ & Hp)|[(u & m & _ & _ & _ & Hp)
       |[(u & e & _ & _ & Hp)
        |(u & ft & pic & _ & _ & _ & _ & _ & Hp)]]]];
    rewrite Hp in *; try reflexivity.
  now contradiction Hne.
Qed.

(** An answer of success means: the requester is the target user or is
    staff, the request carried a file that passes every check of the
    fixed table, and the four square thumbnails of the target user are in
    the storage. *)
Theorem post_success_means (request : Request) (username_ : string)
    (st : Storage) :
  fst (post request username_ st) = Return success_response ->
  (username (user request) = username_ \/ is_staff (user request) = true) /\
  (exists u ft,
     FILES request !! "file" = Some u /\
     passes_fixed_table u (content_type u) ft) /\
  (forall side, In side [30; 50; 120; 500]%Z ->
     exists im,
       snd (post request username_ st) !! name_profile_image username_ side
         = Some (JPEG im) /\
       Image_size im = (side, side)).
Proof.
  intros Hok.
  destruct (post_cases request username_ st)
    as [[_ Hp]|[(_ & _ & Hp)|[(u & m & _ & _ & _ & Hp)
       |[(u & e & _ & _ & Hp)
        |(u & ft & pic & Hf & Hfile & Hv & Hpic & Hw & Hp)]]]];
    rewrite Hp in *; try discriminate Hok.
  split; [|split].
  - rewrite <- forbidden_spec in Hf.
    destruct (String.eqb_spec (username (user request)) username_);
      [now left|].
    destruct (is_staff (user request)); [now right|].
    exfalso. now apply Hf.
  - exists u, ft. split; [exact Hfile|].
    apply validate_iff_outcome in Hv. now inversion Hv.
  - cbn [snd].
    rewrite (generate_profile_images_eq (uploaded u) _ _ pic Hpic Hw).
    cbn [snd]. intros side Hside.
    destruct (thumbnails_lookup username_
                (thumbnail (squared u pic)) st) as [Hin _].
    eexists. split; [apply (Hin side Hside)|reflexivity].
Qed.

End WithHashlib.

Lemma post_touches_target_thumbnails_only_witness :
  snd (post (H := Samples.digest) (I := Samples.pil)
         (Samples.request_with Samples.photo) "alice"
         {["md5(carol)_profile_30.jpeg" :=
             JPEG (Decoded [] (Samples.sound "RGB" 30 30))]})
    !! "md5(carol)_profile_30.jpeg"
  = Some (JPEG (Decoded [] (Samples.sound "RGB" 30 30))).
Proof.
  rewrite (post_touches_target_thumbnails_only (H := Samples.digest)
             (I := Samples.pil)).
  - reflexivity.
  - cbn. intros [Heq|[Heq|[Heq|[Heq|[]]]]]; vm_compute in Heq;
      discriminate Heq.
Defined.

Lemma post_stores_only_on_success_witness :
  snd (post (H := Samples.digest) (I := Samples.pil)
         (Samples.request_with Samples.broken) "alice" ∅) = ∅.
Proof.
  apply (post_stores_only_on_success (H := Samples.digest)
           (I := Samples.pil)).
  vm_compute. discriminate.
Defined.

Lemma post_success_means_witness :
  exists im,
    snd (post (H := Samples.digest) (I := Samples.pil)
           (Samples.request_with Samples.photo) "alice" ∅)
      !! name_profile_image (H := Samples.digest) "alice" 120
      = Some (JPEG im) /\
    Image_size im = (120, 120)%Z.
Proof.
  destruct (post_success_means (H := Samples.digest) (I := Samples.pil)
              (Samples.request_with Samples.photo) "alice" ∅)
    as (_ & _ & Hstored).
  - vm_compute. reflexivity.
  - apply (Hstored 120%Z). cbn. tauto.
Defined.

End ViewExtras.

(** ** The constructor and the log of the e-commerce client *)

Module CommerceExtras.
Import Commerce.

Lemma app_cons (c : ascii) (a b : string) :
  String c a ++ b = String c (a ++ b).
Proof. reflexivity. Qed.

Lemma app_slash_nonempty (p : string) : p ++ "/" <> "".
Proof. destruct p; discriminate. Qed.

Lemma rstrip_no_trailing (s p : string) : rstrip_slash s <> p ++ "/".
Proof.
  revert p. induction s as [|c s IH]; intros p; cbn [rstrip_slash].
  - intros Heq. symmetry in Heq. now apply app_slash_nonempty in Heq.
  - destruct (rstrip_slash s) as [|a r] eqn:Hr.
    + destruct (Ascii.eqb_spec c "/") as [->|Hc].
      * intros Heq. symmetry in Heq. now apply app_slash_nonempty in Heq.
      * destruct p as [|c' p]; rewrite ?app_cons; intros Heq.
        -- change ("" ++ "/") with (String "/" "") in Heq.
           injection Heq as Hc'. now apply Hc.
        -- injection Heq as Hc' Heq. symmetry in Heq.
           now apply app_slash_nonempty in Heq.
    + destruct p as [|c' p]; rewrite ?app_cons; intros Heq.
      * change ("" ++ "/") with (String "/" "") in Heq. discriminate Heq.
      * injection Heq as Hc' Heq. now apply (IH p).
Qed.

Lemma lstrip_no_leading (s p : string) : lstrip_slash s <> "/" ++ p.
Proof.
  induction s as [|c s IH]; cbn [lstrip_slash]; [discriminate|].
  destruct (Ascii.eqb_spec c "/") as [->|Hc]; [exact IH|].
  intros [= Heq _]. now apply Hc.
Qed.

Lemma lstrip_keeps_end (s : string) :
  (forall p, s <> p ++ "/") -> forall p, lstrip_slash s <> p ++ "/".
Proof.
  induction s as [|c s IH]; intros Hs p; cbn [lstrip_slash]; [apply Hs|].
  destruct (Ascii.eqb_spec c "/") as [->|Hc]; [|apply Hs].
  apply IH. intros q Heq. apply (Hs (String "/" q)).
  now rewrite app_cons, Heq.
Qed.

Lemma rstrip_fixed (s : string) :
  (forall p, s <> p ++ "/") -> rstrip_slash s = s.
Proof.
  induction s as [|c s IH]; intros Hs; [reflexivity|]. cbn [rstrip_slash].
  rewrite IH by (intros p Heq; apply (Hs (String c p));
                 now rewrite app_cons, Heq).
  destruct s as [|a s]; [|reflexivity].
  destruct (Ascii.eqb_spec c "/") as [->|Hc]; [|reflexivity].
  exfalso. now apply (Hs "").
Qed.

Lemma lstrip_fixed (s : string) :
  (forall p, s <> "/" ++ p) -> lstrip_slash s = s.
Proof.
  destruct s as [|c s]; intros Hs; [reflexivity|]. cbn [lstrip_slash].
  destruct (Ascii.eqb_spec c "/") as [->|Hc]; [|reflexivity].
  exfalso. now apply (Hs s).
Qed.

Lemma rstrip_app_slash (s : string) :
  rstrip_slash (s ++ "/") = rstrip_slash s.
Proof.
  induction s as [|c s IH]; [reflexivity|].
  rewrite app_cons. cbn [rstrip_slash]. now rewrite IH.
Qed.

Lemma strip_no_slash_at_ends (s : string) :
  (forall p, strip_slash s <> "/" ++ p) /\
  (forall p, strip_slash s <> p ++ "/").
Proof.
  unfold strip_slash. split.
  - apply lstrip_no_leading.
  - apply lstrip_keeps_end, rstrip_no_trailing.
Qed.

Lemma strip_fixed (s : string) :
  (forall p, s <> "/" ++ p) -> (forall p, s <> p ++ "/") ->
  strip_slash s = s.
Proof.
  intros Hl Hr. unfold strip_slash. rewrite (rstrip_fixed s Hr).
  now apply lstrip_fixed.
Qed.

Lemma truthy_str_spec (x : option string) :
  truthy_str x = true <-> exists s, x = Some s /\ s <> "".
Proof.
  destruct x as [s|]; cbn.
  - rewrite negb_true_iff, String.eqb_neq. split; [eauto|].
    now intros (s' & [= <-] & Hs).
  - split; [discriminate|]. now intros (s & Hs & _).
Qed.

(** What [__init__] builds. *)
Lemma init_built (settings : Settings) (url_ key_ : option string)
    (timeout_ : option Z) (self : EommerceAPI) :
  __init__ settings url_ key_ timeout_ = Built self ->
  exists u k,
    (if truthy_str url_ then url_ = Some u
     else ECOMMERCE_API_URL settings = Some (Some u)) /\
    (if truthy_str key_ then key_ = Some k
     else ECOMMERCE_API_SIGNING_KEY settings = Some (Some k)) /\
    strip_slash u <> "" /\ k <> "" /\
    self = {| url := strip_slash u; key := k;
              timeout := if truthy_int timeout_
                         then from_option id 0%Z timeout_
                         else from_option id 5%Z
                                (ECOMMERCE_API_TIMEOUT settings) |}.
Proof.
  unfold __init__.
  destruct (truthy_str url_) eqn:Hu.
  - apply truthy_str_spec in Hu as (u & -> & _).
    destruct (truthy_str key_) eqn:Hk.
    + apply truthy_str_spec in Hk as (k & -> & _).
      destruct (truthy_str (Some (strip_slash u)) && truthy_str (Some k))
        eqn:Hboth; cbn [negb]; [|discriminate].
      apply andb_true_iff in Hboth as [H1 H2].
      apply truthy_str_spec in H1 as (? & [= <-] & ?).
      apply truthy_str_spec in H2 as (? & [= <-] & ?).
      intros [= <-]. now exists u, k.
    + destruct (ECOMMERCE_API_SIGNING_KEY settings) as [sk|];
        cbn [setting]; [|discriminate].
      destruct (truthy_str (Some (strip_slash u)) && truthy_str sk)
        eqn:Hboth; cbn [negb]; [|discriminate].
      apply andb_true_iff in Hboth as [H1 H2].
      apply truthy_str_spec in H1 as (? & [= <-] & ?).
      apply truthy_str_spec in H2 as (k & -> & ?).
      intros [= <-]. now exists u, k.
  - destruct (ECOMMERCE_API_URL settings) as [[u|]|];
      cbn [setting]; try discriminate.
    destruct (truthy_str key_) eqn:Hk.
    + apply truthy_str_spec in Hk as (k & -> & _).
      destruct (truthy_str (Some (strip_slash u)) && truthy_str (Some k))
        eqn:Hboth; cbn [negb]; [|discriminate].
      apply andb_true_iff in Hboth as [H1 H2].
      apply truthy_str_spec in H1 as (? & [= <-] & ?).
      apply truthy_str_spec in H2 as (? & [= <-] & ?).
      intros [= <-]. now exists u, k.
    + destruct (ECOMMERCE_API_SIGNING_KEY settings) as [sk|];
        cbn [setting]; [|discriminate].
      destruct (truthy_str (Some (strip_slash u)) && truthy_str sk)
        eqn:Hboth; cbn [negb]; [|discriminate].
      apply andb_true_iff in Hboth as [H1 H2].
      apply truthy_str_spec in H1 as (? & [= <-] & ?).
      apply truthy_str_spec in H2 as (k & -> & ?).
      intros [= <-]. now exists u, k.
Qed.

(** An object that [__init__] builds has a URL and a key that are not
    empty, and its URL neither starts nor ends with a slash. *)
Theorem init_url_and_key (settings : Settings) (url_ key_ : option string)
    (timeout_ : option Z) (self : EommerceAPI) :
  __init__ settings url_ key_ timeout_ = Built self ->
  url self <> "" /\ key self <> "" /\
  (forall p, url self <> "/" ++ p) /\ (forall p, url self <> p ++ "/").
Proof.
  intros Hb. apply init_built in Hb as (u & k & _ & _ & Hu & Hk & ->).
  cbn [url key]. repeat split; try assumption;
    apply strip_no_slash_at_ends.
Qed.

(** A slash at the end of the URL argument makes no difference. *)
Theorem init_ignores_trailing_slash (settings : Settings) (u : string)
    (key_ : option string) (timeout_ : option Z) :
  u <> "" ->
  __init__ settings (Some (u ++ "/")) key_ timeout_ =
  __init__ settings (Some u) key_ timeout_.
Proof.
  intros Hu. unfold __init__.
  assert (H1 : truthy_str (Some (u ++ "/")) = true)
    by (apply truthy_str_spec; eexists; split;
        [reflexivity|apply app_slash_nonempty]).
  assert (H2 : truthy_str (Some u) = true)
    by (apply truthy_str_spec; now exists u).
  rewrite H1, H2. unfold strip_slash. now rewrite rstrip_app_slash.
Qed.

(** A URL argument made of slashes only is not replaced by the URL of the
    settings: no object is built. *)
Theorem init_rejects_bare_slashes (settings : Settings) (u : string)
    (key_ : option string) (timeout_ : option Z) (self : EommerceAPI) :
  u <> "" -> strip_slash u = "" ->
  __init__ settings (Some u) key_ timeout_ <> Built self.
Proof.
  intros Hu Hs Hb. apply init_built in Hb as (u' & k & Hurl & _ & Hne & _).
  assert (H1 : truthy_str (Some u) = true)
    by (apply truthy_str_spec; now exists u).
  rewrite H1 in Hurl. injection Hurl as <-. contradiction.
Qed.

(** The fields of a built object build it again, whatever the settings
    are, as long as its timeout is not zero. *)
Theorem init_round_trip (settings settings' : Settings)
    (url_ key_ : option string) (timeout_ : option Z) (self : EommerceAPI) :
  __init__ settings url_ key_ timeout_ = Built self ->
  timeout self <> 0%Z ->
  __init__ settings' (Some (url self)) (Some (key self))
           (Some (timeout self)) = Built self.
Proof.
  intros Hb Ht.
  destruct (init_url_and_key _ _ _ _ _ Hb) as (Hu & Hk & Hl & Hr).
  unfold __init__.
  assert (H1 : truthy_str (Some (url self)) = true)
    by (apply truthy_str_spec; eauto).
  assert (H2 : truthy_str (Some (key self)) = true)
    by (apply truthy_str_spec; eauto).
  assert (H3 : truthy_int (Some (timeout self)) = true)
    by (cbn; now rewrite negb_true_iff, Z.eqb_neq).
  rewrite H1, H2, H3. cbn beta iota.
  rewrite (strip_fixed _ Hl Hr), H1, H2. cbn.
  now destruct self.
Qed.

Section WithLibraries.
Context `{Libraries}.

(** A body that is valid JSON and not an object, with a status other than
    200: [create_order] raises an [AttributeError] and logs nothing. *)
Theorem create_order_needs_object (self : EommerceAPI) (user : User)
    (sku : string) (log : Log) (response : HttpResponse) (data : JSON) :
  (forall url data headers timeout,
     requests_post url data headers timeout = response) ->
  body response = Some data -> (forall d, data <> JDict d) ->
  status_code response <> 200%Z ->
  exists message,
    create_order self user sku log = (Raise (AttributeError message), log).
Proof.
  intros Hresp Hbody Hdata Hstatus.
  unfold create_order, response_json. rewrite Hresp, Hbody.
  unfold HTTP_200_OK.
  destruct (Z.eqb_spec (status_code response) 200); [contradiction|].
  destruct data as [| | | | |d]; try (eexists; reflexivity).
  now contradiction (Hdata d).
Qed.

(** [create_order] never drops a record of the log and adds one at most,
    an error; when it adds one, it returns [None] or raises
    [JSONDecodeError]. *)
Theorem create_order_log (self : EommerceAPI) (user : User)
    (sku : string) (log : Log) :
  let result := create_order self user sku log in
  snd result = log \/
  exists record,
    snd result = (log ++ [record])%list /\ level record = ERROR /\
    (fst result = Return JNull \/ fst result = Raise JSONDecodeError).
Proof.
  cbv zeta. unfold create_order, response_json.
  destruct (body (requests_post _ _ _ _)) as [data|].
  - destruct (_ =? HTTP_200_OK)%Z; [now left|].
    destruct data; try (now left).
    right. eexists. repeat split. now left.
  - right. eexists. repeat split. now right.
Qed.

End WithLibraries.

Lemma init_url_and_key_witness :
  url {| url := "https://shop.example.com/api/v1";
         key := "signing-key"; timeout := 5 |} <> "".
Proof.
  apply (init_url_and_key MoreSamples.lms_settings None None None).
  reflexivity.
Defined.

Lemma init_ignores_trailing_slash_witness :
  __init__ MoreSamples.lms_settings (Some ("http://localhost:8002/api" ++ "/"))
           None (Some 10%Z) =
  __init__ MoreSamples.lms_settings (Some "http://localhost:8002/api")
           None (Some 10%Z).
Proof. apply init_ignores_trailing_slash. discriminate. Defined.

Lemma init_rejects_bare_slashes_witness :
  __init__ MoreSamples.lms_settings (Some "//") None None <>
  Built {| url := "https://shop.example.com/api/v1";
           key := "signing-key"; timeout := 5 |}.
Proof. apply init_rejects_bare_slashes; [discriminate|reflexivity]. Defined.

Lemma init_round_trip_witness :
  __init__ {| ECOMMERCE_API_URL := None; ECOMMERCE_API_SIGNING_KEY := None;
              ECOMMERCE_API_TIMEOUT := None |}
           (Some "https://shop.example.com/api/v1") (Some "signing-key")
           (Some 5%Z) =
  Built {| url := "https://shop.example.com/api/v1";
           key := "signing-key"; timeout := 5 |}.
Proof.
  apply (init_round_trip MoreSamples.lms_settings _ None None None
           {| url := "https://shop.example.com/api/v1";
              key := "signing-key"; timeout := 5 |}).
  - reflexivity.
  - discriminate.
Defined.

Lemma create_order_needs_object_witness :
  exists message,
    create_order (H := Samples.failing_service)
      Samples.api Samples.buyer "course-seat" [] =
    (Raise (AttributeError message), []).
Proof.
  apply (create_order_needs_object (H := Samples.failing_service)
           Samples.api Samples.buyer "course-seat" []
           {| status_code := 500; body := Some (JList []) |} (JList [])).
  - reflexivity.
  - reflexivity.
  - discriminate.
  - discriminate.
Defined.

End CommerceExtras.

(** ** The padding of the test images *)

Module TestHelperExtras.
Import TestHelpers.

Lemma times_write_zeros (n m : nat) (file : list byte) :
  times n (write (repeat x00 m)) file = (file ++ repeat x00 (n * m))%list.
Proof.
  revert file. induction n as [|n IH]; intros file; cbn [times].
  - cbn. now rewrite List.app_nil_r.
  - rewrite IH. unfold write. rewrite <- List.app_assoc.
    now rewrite <- List.repeat_app.
Qed.

(** What [_make_image_file] pads with: zero bytes, as many as the two
    loops write. *)
Lemma pad_image_file_eq (saved : list byte) (force_size : Z) :
  let bytes_to_pad := (force_size - Z.of_nat (length saved))%Z in
  pad_image_file saved (Some force_size) =
  (saved ++ repeat x00 (Z.to_nat (bytes_to_pad / 256) * 256
                        + Z.to_nat (bytes_to_pad mod 256)))%list.
Proof.
  cbv zeta. unfold pad_image_file, xrange.
  change [x00] with (repeat x00 1).
  rewrite !times_write_zeros, <- List.app_assoc, <- List.repeat_app.
  now rewrite Nat.mul_1_r.
Qed.

(** A forced size that is not below the size of the saved picture is
    reached exactly, with zero bytes after the picture. *)
Theorem pad_image_file_reaches_size (saved : list byte) (force_size : Z) :
  (Z.of_nat (length saved) <= force_size)%Z ->
  pad_image_file saved (Some force_size) =
    (saved ++ repeat x00 (Z.to_nat force_size - length saved))%list /\
  Z.of_nat (length (pad_image_file saved (Some force_size))) = force_size.
Proof.
  intros Hle. rewrite pad_image_file_eq.
  assert (Hn : (Z.to_nat ((force_size - Z.of_nat (length saved)) / 256) * 256
                + Z.to_nat ((force_size - Z.of_nat (length saved)) mod 256)
                = Z.to_nat force_size - length saved)%nat).
  { pose proof (Z.div_mod (force_size - Z.of_nat (length saved)) 256).
    pose proof (Z.mod_pos_bound (force_size - Z.of_nat (length saved)) 256).
    pose proof (Z.div_pos (force_size - Z.of_nat (length saved)) 256).
    lia. }
  rewrite Hn. split; [reflexivity|].
  rewrite List.length_app, List.repeat_length. lia.
Qed.

(** A forced size below the size of the saved picture does not cut the
    file: the picture is kept whole and up to 255 zero bytes follow it. *)
Theorem pad_image_file_never_truncates (saved : list byte) (force_size : Z) :
  (force_size < Z.of_nat (length saved))%Z ->
  pad_image_file saved (Some force_size) =
  (saved ++ repeat x00
     (Z.to_nat ((force_size - Z.of_nat (length saved)) mod 256)))%list.
Proof.
  intros Hlt. rewrite pad_image_file_eq.
  assert (Hq : ((force_size - Z.of_nat (length saved)) / 256 < 0)%Z)
    by (apply Z.div_lt_upper_bound; lia).
  now replace (Z.to_nat ((force_size - Z.of_nat (length saved)) / 256))
    with 0%nat by lia.
Qed.

Lemma pad_image_file_reaches_size_witness :
  Z.of_nat (length (pad_image_file Samples.png_header (Some 99%Z))) = 99%Z.
Proof.
  apply (pad_image_file_reaches_size Samples.png_header 99). cbn. lia.
Defined.

Lemma pad_image_file_never_truncates_witness :
  pad_image_file Samples.png_header (Some 3%Z) =
  (Samples.png_header ++ repeat x00 247)%list.
Proof.
  apply (pad_image_file_never_truncates Samples.png_header 3). cbn. lia.
Defined.

End TestHelperExtras.
